(** * Joint Replenishment Problem solver: the policy engine of
    [models/jrp_solver.py], embedded and verified.

    The solver is written once, over an interface [PyFloat] of the float
    operations the Python code uses, and read at two number models:
    - [binary64]: IEEE 754 double precision, the value a Python [float]
      holds, with the kernel's primitive floats (everything computes);
    - [exact]: the real numbers, the arithmetic the formulas are stated in.

    The program runs on floats: a theorem about it is stated for every
    number model, under laws that both models satisfy, or for [binary64],
    and is applied to floats at a concrete input. The exact model shows
    that the shared laws are laws of arithmetic. Two lemmas are stated for
    it alone, and named [_exact]: identities of the lecture that hold when
    nothing is rounded, and not on floats.

    Python exceptions are values of [py_error]; a function that may raise
    returns a [result], and a run stops at the first exception, in the
    order Python evaluates.

    Three things of the language are modelled rather than transcribed:
    - [list.sort] is a stable insertion sort on [<]; it returns what
      Python's sort returns whenever [<] orders the keys (no NaN among
      them);
    - [sum] adds from left to right; CPython 3.12 and later compensate the
      rounding errors of a float sum, which can change the last digits on
      floats and changes nothing in exact arithmetic;
    - an [int] in mixed arithmetic is converted by [of_int]; the integers
      that occur (0, 1, 2 and the multipliers) convert without an
      [OverflowError].

    The validator of [models/validators.py], the conversion and the loader
    of [io_utils/input_loader.py] and the comparison helper of [app.py]
    come after the solver. The first three read raw input, the values
    [json.loads] returns, and may raise [TypeError]; they are embedded
    over [json] and return an [outcome]. *)

From Stdlib Require Import ZArith Reals Lra Lia Floats.
From stdpp Require Import base option list sorting gmap strings pretty.

Local Open Scope Z_scope.

(** ** Exceptions and the result monad *)

Inductive py_error : Type :=
| ZeroDivisionError
| ValueError (msg : string)
| OverflowError
| IndexError
| KeyError.

Inductive result (A : Type) : Type :=
| Ok (x : A)
| Raise (e : py_error).

Arguments Ok {A} x.
Arguments Raise {A} e.

#[global] Instance result_ret : MRet result := fun A x => Ok x.

#[global] Instance result_bind : MBind result := fun A B k m =>
  match m with
  | Ok x => k x
  | Raise e => Raise e
  end.

#[global] Instance result_fmap : FMap result := fun A B f m =>
  match m with
  | Ok x => Ok (f x)
  | Raise e => Raise e
  end.

(** Messages of the [ValueError]s the solver can meet. The first is the
    one [math.sqrt] gives on a negative argument, the second the one
    [round] gives on a NaN. In [msg_bad_key] the three names appear in the
    iteration order of a Python set, which the language leaves open. *)
Definition msg_math_domain : string := "math domain error".
Definition msg_round_nan : string := "cannot convert float NaN to integer".
Definition msg_denominator : string :=
  "Denominator for T* is non-positive; check parameters.".
Definition msg_bad_key : string := "key must be one of {'a', 'D', 'v'}".

(** ** The float operations the solver uses *)

Class PyFloat (F : Type) : Type := {
  (** conversion of a Python [int] met in mixed arithmetic *)
  of_int : Z -> F;
  fadd : F -> F -> F;
  fsub : F -> F -> F;
  fmul : F -> F -> F;
  (** quotient by a divisor already known to be non-zero *)
  fdiv : F -> F -> F;
  (** square root of an argument already known not to be negative *)
  fsqrt : F -> F;
  feqb : F -> F -> bool;
  fltb : F -> F -> bool;
  fleb : F -> F -> bool;
  (** the built-in [round] with one argument: nearest integer, ties to even *)
  fround : F -> result Z
}.

Declare Scope py_scope.
Delimit Scope py_scope with py.

(** [x / y] on floats raises on a zero divisor. *)
Definition py_div `{PyFloat F} (x y : F) : result F :=
  if feqb y (of_int 0) then Raise ZeroDivisionError else Ok (fdiv x y).

(** [math.sqrt x] raises on a negative argument. *)
Definition math_sqrt `{PyFloat F} (x : F) : result F :=
  if fltb x (of_int 0) then Raise (ValueError msg_math_domain) else Ok (fsqrt x).

(** The built-in [sum]: [+] from left to right, starting from the
    integer 0. *)
Definition py_sum `{PyFloat F} (xs : list F) : F :=
  foldl fadd (of_int 0) xs.

Infix "+" := fadd : py_scope.
Infix "-" := fsub : py_scope.
Infix "*" := fmul : py_scope.
Infix "/" := py_div : py_scope.

(** ** Data model *)

Record Item (F : Type) : Type := mkItem {
  it_id : string;
  it_a : F;      (* minor setup cost *)
  it_D : F;      (* demand rate (units/time) *)
  it_v : F       (* unit value *)
}.

Arguments mkItem {F} _ _ _ _.
Arguments it_id {F} _.
Arguments it_a {F} _.
Arguments it_D {F} _.
Arguments it_v {F} _.

Record JRPParams (F : Type) : Type := mkParams {
  params_A : F;      (* major setup cost *)
  params_r : F;      (* carrying charge *)
  params_items : list (Item F)
}.

Arguments mkParams {F} _ _ _.
Arguments params_A {F} _.
Arguments params_r {F} _.
Arguments params_items {F} _.

(** The dictionary [total_cost] returns. The independent policy builds one
    without the key ["total"] and with [None] under ["family_setup"]. *)
Record CostBreakdown (F : Type) : Type := mkCost {
  cb_total : option F;
  cb_family_setup : option F;
  cb_item_setup : F;
  cb_holding : F
}.

Arguments mkCost {F} _ _ _ _.
Arguments cb_total {F} _.
Arguments cb_family_setup {F} _.
Arguments cb_item_setup {F} _.
Arguments cb_holding {F} _.

(** One entry of ["item_results"]. The keys a policy does not write are
    [None]: ["T_star"] and ["Qivi"] belong to the joint policy, ["Q_i"] and
    ["total_cost_item"] to the independent one. *)
Record ItemResult (F : Type) : Type := mkRes {
  res_id : string;
  res_DiVi : F;
  res_m : Z;
  res_T_star : option F;
  res_Qivi : option F;
  res_cycle_time : F;
  res_avg_inventory : F;
  res_annual_holding_cost : F;
  res_annual_setup_cost : F;
  res_Q_i : option F;
  res_total_cost_item : option F
}.

Arguments mkRes {F} _ _ _ _ _ _ _ _ _ _ _.
Arguments res_id {F} _.
Arguments res_DiVi {F} _.
Arguments res_m {F} _.
Arguments res_T_star {F} _.
Arguments res_Qivi {F} _.
Arguments res_cycle_time {F} _.
Arguments res_avg_inventory {F} _.
Arguments res_annual_holding_cost {F} _.
Arguments res_annual_setup_cost {F} _.
Arguments res_Q_i {F} _.
Arguments res_total_cost_item {F} _.

Record Solution (F : Type) : Type := mkSol {
  sol_T_star : option F;
  sol_m : list Z;
  sol_item_results : list (ItemResult F);
  sol_total_cost : F;
  sol_cost_breakdown : CostBreakdown F;
  sol_method : string
}.

Arguments mkSol {F} _ _ _ _ _ _.
Arguments sol_T_star {F} _.
Arguments sol_m {F} _.
Arguments sol_item_results {F} _.
Arguments sol_total_cost {F} _.
Arguments sol_cost_breakdown {F} _.
Arguments sol_method {F} _.

Record Comparison (F : Type) : Type := mkCmp {
  cmp_T_star_diff : F;
  cmp_cost_diff : F;
  cmp_better : string;
  cmp_items_count_diff : Z
}.

Arguments mkCmp {F} _ _ _ _.
Arguments cmp_T_star_diff {F} _.
Arguments cmp_cost_diff {F} _.
Arguments cmp_better {F} _.
Arguments cmp_items_count_diff {F} _.

(** ** The solver, over any number model *)

Section Solver.
Context {F : Type} `{PyFloat F}.

Local Open Scope py_scope.

(** A key a dictionary is read at is present, or the read raises. *)
Definition dict_get {A : Type} (x : option A) : result A :=
  match x with
  | Some y => Ok y
  | None => Raise KeyError
  end.

(** [list.sort(key=...)]: a stable sort that compares keys with [<] alone.
    An element goes in front of the sorted rest unless an element of the
    rest is strictly smaller, so equal keys keep their input order. *)
Fixpoint insert_by_key {A : Type} (key : A -> F) (x : A) (l : list A) : list A :=
  match l with
  | [] => [x]
  | y :: l' =>
      if fltb (key y) (key x) then y :: insert_by_key key x l' else x :: l
  end.

Definition sort_by_key {A : Type} (key : A -> F) (l : list A) : list A :=
  foldr (insert_by_key key) [] l.

(** *** Cost breakdown (lecture TRC) *)

Definition total_cost (A r : F) (items : list (Item F)) (T : F)
    (m_list : list Z) : result (CostBreakdown F) :=
  setups ← mapM (fun '(it, m) => it_a it / of_int m) (zip items m_list);
  group_over_T ← (A + py_sum setups) / T;
  let holding_sum :=
    py_sum (map (fun '(it, m) =>
                   fdiv (it_D it * of_int m * T * it_v it * r) (of_int 2))
                (zip items m_list)) in
  family_setup ← A / T;
  item_setups ← mapM (fun '(it, m) => it_a it / (of_int m * T)) (zip items m_list);
  let item_setup := py_sum item_setups in
  mret (mkCost (Some (group_over_T + holding_sum)) (Some family_setup)
               item_setup holding_sum).

(** *** Per-item metrics *)

Definition item_metrics (T_star r : F) (it : Item F) (m : Z)
    : result (ItemResult F) :=
  let DiVi := it_D it * it_v it in
  let Qivi := DiVi * of_int m * T_star in
  let cycle_time := of_int m * T_star in
  avg_inventory ← Qivi / (of_int 2 * it_v it);
  let annual_holding_cost := avg_inventory * it_v it * r in
  annual_setup_cost ← it_a it / (of_int m * T_star);
  mret (mkRes (it_id it) DiVi m (Some T_star) (Some Qivi) cycle_time
              avg_inventory annual_holding_cost annual_setup_cost None None).

Definition compute_item_metrics (items : list (Item F)) (T_star : F)
    (m_list : list Z) (r : F) : result (list (ItemResult F)) :=
  mapM (fun '(it, m) => item_metrics T_star r it m) (zip items m_list).

(** *** Formula-based JRP policy (lecture procedure) *)

(** Step 1: the ratio of an item, and the ranking. *)
Definition ratio (it : Item F) : result F :=
  it_a it / (it_D it * it_v it).

Definition rank_items (items : list (Item F)) : result (list (Item F)) :=
  ratios ← mapM (fun it => q ← ratio it; mret (q, it)) items;
  mret (map snd (sort_by_key fst ratios)).

(** Step 3: the continuous candidate of an item and its multiplier. *)
Definition m_candidate (A : F) (base_item it : Item F) : result F :=
  q ← (it_a it * it_D base_item * it_v base_item)
        / ((A + it_a base_item) * (it_D it * it_v it));
  math_sqrt q.

Definition multiplier (A : F) (base_item it : Item F) : result Z :=
  m_val ← m_candidate A base_item it;
  n ← fround m_val;
  mret (Z.max 1 n).

(** Steps 2 and 3: the multipliers, in ranking order. *)
Definition multipliers (A : F) (ordered_items : list (Item F)) : result (list Z) :=
  base_item ← match ordered_items with
              | [] => Raise IndexError
              | b :: _ => Ok b
              end;
  ms ← mapM (multiplier A base_item) (tail ordered_items);
  mret (1 :: ms).

(** Step 4: the basic cycle time. *)
Definition cycle_time_T (A r : F) (ordered_items : list (Item F))
    (m_list : list Z) : result F :=
  setups ← mapM (fun '(it, m) => it_a it / of_int m) (zip ordered_items m_list);
  let numerator := of_int 2 * (A + py_sum setups) in
  let denominator :=
    r * py_sum (map (fun '(it, m) => it_D it * it_v it * of_int m)
                    (zip ordered_items m_list)) in
  if fleb denominator (of_int 0) then Raise (ValueError msg_denominator)
  else q ← numerator / denominator; math_sqrt q.

(** The dictionary comprehension keyed by id: a later entry with the same
    id replaces an earlier one. *)
Definition index_by_id (item_results : list (ItemResult F))
    : gmap string (ItemResult F) :=
  foldl (fun d res => <[res_id res := res]> d) ∅ item_results.

Definition find_formula_policy (params : JRPParams F) : result (Solution F) :=
  let items := params_items params in
  let A := params_A params in
  let r := params_r params in
  ordered_items ← rank_items items;
  m_list ← multipliers A ordered_items;
  T_star ← cycle_time_T A r ordered_items m_list;
  item_results ← compute_item_metrics ordered_items T_star m_list r;
  cb ← total_cost A r ordered_items T_star m_list;
  let id_to_result := index_by_id item_results in
  ordered_results ← mapM (fun it => dict_get (id_to_result !! it_id it)) items;
  let ordered_m := map res_m ordered_results in
  total ← dict_get (cb_total cb);
  mret (mkSol (Some T_star) ordered_m ordered_results total cb "formula").

(** *** Comparison helper *)

(** [x or 0] on a cycle time that may be [None]. *)
Definition or_zero (x : option F) : F :=
  match x with
  | None => of_int 0
  | Some t => if feqb t (of_int 0) then of_int 0 else t
  end.

Definition compare_policies (sol1 sol2 : Solution F) : Comparison F :=
  mkCmp (or_zero (sol_T_star sol1) - or_zero (sol_T_star sol2))
        (sol_total_cost sol1 - sol_total_cost sol2)
        (if fltb (sol_total_cost sol1) (sol_total_cost sol2)
         then "Instance 1" else "Instance 2")
        (Z.of_nat (length (sol_item_results sol1))
         - Z.of_nat (length (sol_item_results sol2)))%Z.

(** *** Independent EOQ policy *)

Definition eoq_item (A r : F) (it : Item F) : result (ItemResult F) :=
  let DiVi := it_D it * it_v it in
  q ← (of_int 2 * (A + it_a it) * it_D it) / (r * it_v it);
  Q_i ← math_sqrt q;
  cycle_time ← Q_i / it_D it;
  let avg_inventory := fdiv Q_i (of_int 2) in
  per_unit ← it_D it / Q_i;
  let annual_setup_cost := (A + it_a it) * per_unit in
  let annual_holding_cost := avg_inventory * it_v it * r in
  let TC_i := annual_setup_cost + annual_holding_cost in
  mret (mkRes (it_id it) DiVi 1 None None cycle_time avg_inventory
              annual_holding_cost annual_setup_cost (Some Q_i) (Some TC_i)).

(** The loop of [find_independent_policy]: the three running totals and the
    results appended so far. *)
Fixpoint eoq_loop (A r : F) (items : list (Item F))
    (total_cost total_setup total_holding : F)
    (item_results : list (ItemResult F))
    : result (F * F * F * list (ItemResult F)) :=
  match items with
  | [] => Ok (total_cost, total_setup, total_holding, item_results)
  | it :: rest =>
      res ← eoq_item A r it;
      eoq_loop A r rest
        (total_cost + (res_annual_setup_cost res + res_annual_holding_cost res))
        (total_setup + res_annual_setup_cost res)
        (total_holding + res_annual_holding_cost res)
        (item_results ++ [res])
  end.

Definition find_independent_policy (params : JRPParams F) : result (Solution F) :=
  let items := params_items params in
  let A := params_A params in
  let r := params_r params in
  '(total_cost, total_setup, total_holding, item_results) ←
    eoq_loop A r items (of_int 0) (of_int 0) (of_int 0) [];
  mret (mkSol None (replicate (length items) 1%Z) item_results total_cost
              (mkCost None None total_setup total_holding) "independent_eoq").

(** *** Sensitivity analysis helpers (formula policy only) *)

(** A sweep solves once per sample. Its model returns, next to the result,
    the parameter sets handed to [find_formula_policy], in call order. *)
Definition Sweep : Type := list (JRPParams F) * result (list F * list F).

Fixpoint sweep_loop (local : F -> JRPParams F) (values : list F)
    (x_vals y_vals : list F) (calls : list (JRPParams F)) : Sweep :=
  match values with
  | [] => (calls, Ok (x_vals, y_vals))
  | val :: rest =>
      let local_params := local val in
      match find_formula_policy local_params with
      | Raise e => (calls ++ [local_params], Raise e)
      | Ok sol =>
          sweep_loop local rest (x_vals ++ [val])
                     (y_vals ++ [sol_total_cost sol]) (calls ++ [local_params])
      end
  end.

Definition sensitivity_curve_over_A (params : JRPParams F) (A_values : list F)
    : Sweep :=
  sweep_loop (fun A_val => mkParams A_val (params_r params) (params_items params))
             A_values [] [] [].

Definition sensitivity_curve_over_r (params : JRPParams F) (r_values : list F)
    : Sweep :=
  sweep_loop (fun r_val => mkParams (params_A params) r_val (params_items params))
             r_values [] [] [].

(** The inner loop that rebuilds the item list for one sample. An item
    with the swept id contributes its updated copy; under a key that is
    none of the three it would contribute nothing. *)
Definition replace_item_field (item_id key : string) (val : F)
    (items : list (Item F)) : list (Item F) :=
  items ≫= (fun it =>
    if String.eqb (it_id it) item_id then
      if String.eqb key "a" then [mkItem (it_id it) val (it_D it) (it_v it)]
      else if String.eqb key "D" then [mkItem (it_id it) (it_a it) val (it_v it)]
      else if String.eqb key "v" then [mkItem (it_id it) (it_a it) (it_D it) val]
      else []
    else [it]).

Definition valid_keys : list string := ["a"; "D"; "v"].

Definition sensitivity_curve_over_item (params : JRPParams F)
    (item_id key : string) (values : list F) : Sweep :=
  if bool_decide (key ∈ valid_keys) then
    sweep_loop (fun val =>
                  mkParams (params_A params) (params_r params)
                           (replace_item_field item_id key val (params_items params)))
               values [] [] []
  else ([], Raise (ValueError msg_bad_key)).

End Solver.

(** ** The binary64 model: Python floats *)

Module Binary64.

(** An integer as the nearest double, ties to even (exact below 2^53). *)
Definition int_to_float (z : Z) : float :=
  SF2Prim (binary_normalize prec emax z 0 false).

(** The integer nearest to [m * 2^e], ties to even, for [m >= 0]. *)
Definition round_half_even_dyadic (m e : Z) : Z :=
  if (0 <=? e)%Z then m * 2 ^ e
  else
    let d := 2 ^ (- e) in
    let q := m / d in
    match (2 * (m mod d) ?= d)%Z with
    | Lt => q
    | Gt => q + 1
    | Eq => if Z.even q then q else q + 1
    end.

(** [round(x)]: an infinity raises [OverflowError], a NaN [ValueError]. *)
Definition round (x : float) : result Z :=
  match Prim2SF x with
  | S754_nan => Raise (ValueError msg_round_nan)
  | S754_infinity _ => Raise OverflowError
  | S754_zero _ => Ok 0
  | S754_finite s m e => Ok (cond_Zopp s (round_half_even_dyadic (Zpos m) e))
  end.

(** [x] is exactly [k + 1/2]: a finite float [±m * 2^e] with
    [2 * (±m) = (2 * k + 1) * 2^(-e)]. *)
Definition halfway (x : float) (k : Z) : Prop :=
  exists s m e,
    Prim2SF x = S754_finite s m e /\ e < 0
    /\ 2 * cond_Zopp s (Zpos m) = (2 * k + 1) * 2 ^ (- e).

(** The numbers [validate_instance] lets through, on the specification
    side of the floats: anything but a negative number or minus infinity. *)
Definition sf_nonneg (x : spec_float) : bool :=
  match x with
  | S754_finite true _ _ | S754_infinity true => false
  | _ => true
  end.

#[global] Instance binary64 : PyFloat float := {|
  of_int := int_to_float;
  fadd := PrimFloat.add;
  fsub := PrimFloat.sub;
  fmul := PrimFloat.mul;
  fdiv := PrimFloat.div;
  fsqrt := PrimFloat.sqrt;
  feqb := PrimFloat.eqb;
  fltb := PrimFloat.ltb;
  fleb := PrimFloat.leb;
  fround := round
|}.

End Binary64.

(** ** The exact model: real numbers *)

Module Exact.

Definition Reqb (x y : R) : bool := if Req_dec_T x y then true else false.
Definition Rltb (x y : R) : bool := if Rlt_dec x y then true else false.
Definition Rleb (x y : R) : bool := if Rle_dec x y then true else false.

(** The integer nearest to [x], ties to even. *)
Definition round_half_even (x : R) : Z :=
  let n := Zfloor x in
  if Rltb (x - IZR n) (1 / 2) then n
  else if Rltb (1 / 2) (x - IZR n) then n + 1
  else if Z.even n then n else n + 1.

(** [x] is exactly [k + 1/2]. *)
Definition halfway (x : R) (k : Z) : Prop := (x = IZR k + 1 / 2)%R.

#[global] Instance exact : PyFloat R := {|
  of_int := IZR;
  fadd := Rplus;
  fsub := Rminus;
  fmul := Rmult;
  fdiv := Rdiv;
  fsqrt := R_sqrt.sqrt;
  feqb := Reqb;
  fltb := Rltb;
  fleb := Rleb;
  fround := fun x => Ok (round_half_even x)
|}.

End Exact.

(** ** Validated input

    [validators.validate_instance] reports an error for an empty item list
    and for a number [val] with [val < 0]; its other checks (keys present,
    values numeric) are what the record types hold already. The boolean
    below is true when it reports no error. *)

Section Validity.
Context {F : Type} `{PyFloat F}.

Definition nonneg (val : F) : bool := negb (fltb val (of_int 0)).

Definition valid_item (it : Item F) : bool :=
  nonneg (it_a it) && nonneg (it_D it) && nonneg (it_v it).

Definition validate_instance (params : JRPParams F) : bool :=
  nonneg (params_A params) && nonneg (params_r params)
  && negb (bool_decide (params_items params = []))
  && forallb valid_item (params_items params).

(** Item ids are pairwise distinct: what the data model asks of a
    parameter set, and what lets a result be found again by its id. *)
Definition unique_ids (params : JRPParams F) : Prop :=
  NoDup (map it_id (params_items params)).

(** The pair the ranking sorts for an item. *)
Definition keyed (it : Item F) : F * Item F :=
  (match ratio it with Ok q => q | Raise _ => of_int 0 end, it).

(** No two items share a ratio: of the items at two different positions,
    one has the strictly smaller ratio. *)
Definition distinct_ratios (params : JRPParams F) : Prop :=
  forall i j it1 it2 q1 q2,
    i <> j ->
    params_items params !! i = Some it1 -> params_items params !! j = Some it2 ->
    ratio it1 = Ok q1 -> ratio it2 = Ok q2 ->
    fltb q1 q2 = true \/ fltb q2 q1 = true.

(** The error classes of the interface, read on the exceptions raised:
    a division by zero or the non-positive denominator of the cycle time
    is an invalid parameter set, the rejected sweep key an invalid target. *)
Definition InvalidParameters (e : py_error) : Prop :=
  e = ZeroDivisionError \/ e = ValueError msg_denominator.

Definition InvalidTarget (e : py_error) : Prop :=
  e = ValueError msg_bad_key.

(** *** The sweep of the interface: one field replaced *)

Inductive SweepTarget : Type :=
| OverA
| OverR
| OverItem (item_id key : string).

(** The item with one of its numbers set. *)
Definition with_field (key : string) (val : F) (it : Item F) : Item F :=
  if String.eqb key "a" then mkItem (it_id it) val (it_D it) (it_v it)
  else if String.eqb key "D" then mkItem (it_id it) (it_a it) val (it_v it)
  else if String.eqb key "v" then mkItem (it_id it) (it_a it) (it_D it) val
  else it.

(** The base parameters with only the targeted field set to the sample. *)
Definition substitute (target : SweepTarget) (val : F) (params : JRPParams F)
    : JRPParams F :=
  match target with
  | OverA => mkParams val (params_r params) (params_items params)
  | OverR => mkParams (params_A params) val (params_items params)
  | OverItem item_id key =>
      mkParams (params_A params) (params_r params)
        (map (fun it => if String.eqb (it_id it) item_id
                        then with_field key val it else it)
             (params_items params))
  end.

(** The three sweeps of the source under one name, chosen by the target. *)
Definition sweep (params : JRPParams F) (target : SweepTarget)
    (samples : list F) : Sweep :=
  match target with
  | OverA => sensitivity_curve_over_A params samples
  | OverR => sensitivity_curve_over_r params samples
  | OverItem item_id key => sensitivity_curve_over_item params item_id key samples
  end.

End Validity.

(** ** Facts of arithmetic both number models share *)

Class PyFloatLaws (F : Type) `{PyFloat F} : Prop := {
  (** a product of two zeros is a zero *)
  feqb_zero_mul : forall x y : F,
    feqb x (of_int 0) = true -> feqb y (of_int 0) = true ->
    feqb (fmul x y) (of_int 0) = true;
  (** [<] is asymmetric and transitive, and of two equal numbers none is
      below the other *)
  fltb_asym : forall x y : F, fltb x y = true -> fltb y x = false;
  fltb_trans : forall x y z : F,
    fltb x y = true -> fltb y z = true -> fltb x z = true;
  fltb_feqb : forall x y : F, feqb x y = true -> fltb x y = false;
  (** sums, products and guarded quotients of numbers that are not
      negative are not negative *)
  nonneg_two : nonneg (of_int 2 : F) = true;
  nonneg_add : forall x y : F,
    nonneg x = true -> nonneg y = true -> nonneg (fadd x y) = true;
  nonneg_mul : forall x y : F,
    nonneg x = true -> nonneg y = true -> nonneg (fmul x y) = true;
  nonneg_div : forall x y : F,
    nonneg x = true -> nonneg y = true -> feqb y (of_int 0) = false ->
    nonneg (fdiv x y) = true
}.

(** A number model says which of its numbers lie exactly halfway between
    two integers, and [round] sends such a number to the even neighbour. *)
Class RoundTies (F : Type) `{PyFloat F} : Type := {
  is_halfway : F -> Z -> Prop;
  fround_halfway : forall (x : F) (k : Z),
    is_halfway x k -> fround x = Ok (if Z.even k then k else k + 1)
}.

(** ** The worked example of the lecture *)

#[local] Set Warnings "-inexact-float".

Definition example_small : JRPParams float :=
  mkParams 40%float 0.24%float
    [ mkItem "1L" 15%float 500%float 2%float;
      mkItem "5L" 15%float 300%float 2.5%float;
      mkItem "10L" 15%float 200%float 3%float ].

(** [x] is [c] up to [tol], on floats. *)
Definition approx (x c tol : float) : bool :=
  PrimFloat.leb (PrimFloat.abs (PrimFloat.sub x c)) tol.

(** ** Two small instances, in either number model *)

(** The second item has the candidate [sqrt (25/4) = 2.5]. *)
Definition halfway_example {F : Type} `{PyFloat F} : JRPParams F :=
  mkParams (of_int 0) (of_int 3)
    [ mkItem "base" (of_int 1) (of_int 1) (of_int 1);
      mkItem "x" (of_int 25) (of_int 4) (of_int 1) ].

(** Items X and Y share the ratio 1; Z has the ratio 100. *)
Definition tied_items {F : Type} `{PyFloat F} : list (Item F) :=
  [ mkItem "X" (of_int 1) (of_int 1) (of_int 1);
    mkItem "Y" (of_int 4) (of_int 4) (of_int 1);
    mkItem "Z" (of_int 100) (of_int 1) (of_int 1) ].

Definition tied_items_swapped {F : Type} `{PyFloat F} : list (Item F) :=
  [ mkItem "Y" (of_int 4) (of_int 4) (of_int 1);
    mkItem "X" (of_int 1) (of_int 1) (of_int 1);
    mkItem "Z" (of_int 100) (of_int 1) (of_int 1) ].

Definition tied_example {F : Type} `{PyFloat F} : JRPParams F :=
  mkParams (of_int 3) (of_int 1) tied_items.

Definition tied_example_swapped {F : Type} `{PyFloat F} : JRPParams F :=
  mkParams (of_int 3) (of_int 1) tied_items_swapped.

(** Two items under one id: the second has the candidate 10. *)
Definition shared_id_example {F : Type} `{PyFloat F} : JRPParams F :=
  mkParams (of_int 0) (of_int 1)
    [ mkItem "X" (of_int 1) (of_int 1) (of_int 1);
      mkItem "X" (of_int 100) (of_int 1) (of_int 1) ].

(** ** Exceptions of a failing solve *)

(** The exceptions of the built-in [round] on a float: [OverflowError] on
    an infinity, [ValueError] on a NaN, and no other. *)
Class RoundErrors (F : Type) `{PyFloat F} : Prop := {
  fround_raises : forall (x : F) (e : py_error),
    fround x = Raise e -> e = OverflowError \/ e = ValueError msg_round_nan
}.

(** An integer that is not negative converts to a number that is not
    negative. *)
Class OfIntLaws (F : Type) `{PyFloat F} : Prop := {
  nonneg_of_int : forall z : Z, 0 <= z -> nonneg (of_int z : F) = true
}.

(** What a failing joint solve on a non-empty item list can raise. *)
Definition ArithmeticFailure (e : py_error) : Prop :=
  e = ZeroDivisionError \/ e = ValueError msg_math_domain
  \/ e = ValueError msg_denominator
  \/ e = OverflowError \/ e = ValueError msg_round_nan.

(** ** Raw input: the values [json.loads] returns

    A JSON object is the list of its entries, in insertion order; the keys
    of a dictionary are pairwise distinct, and a key is read at its first
    entry. *)

#[local] Set Warnings "-register-all".

Inductive json : Type :=
| JNull
| JBool (b : bool)
| JInt (z : Z)
| JFloat (f : float)
| JStr (s : string)
| JList (l : list json)
| JDict (d : list (string * json)).

(** The validators and the loader meet one exception the solver does not:
    [TypeError]. *)
Inductive py_exception : Type :=
| TypeError
| Builtin (e : py_error).

Inductive outcome (A : Type) : Type :=
| Return (x : A)
| Throw (e : py_exception).

Arguments Return {A} x.
Arguments Throw {A} e.

#[global] Instance outcome_ret : MRet outcome := fun A x => Return x.

#[global] Instance outcome_bind : MBind outcome := fun A B k m =>
  match m with
  | Return x => k x
  | Throw e => Throw e
  end.

#[global] Instance outcome_fmap : FMap outcome := fun A B f m =>
  match m with
  | Return x => Return (f x)
  | Throw e => Throw e
  end.

Fixpoint dict_lookup (k : string) (d : list (string * json)) : option json :=
  match d with
  | [] => None
  | (k', v) :: d' => if String.eqb k' k then Some v else dict_lookup k d'
  end.

(** [k in x] for a string [k]: a key of a dictionary, an element of a
    list, a substring of a string; the other values are not containers. *)
Definition py_in (k : string) (x : json) : outcome bool :=
  match x with
  | JDict d => Return (bool_decide (is_Some (dict_lookup k d)))
  | JList l =>
      Return (existsb (fun y => match y with
                                | JStr s => String.eqb s k
                                | _ => false
                                end) l)
  | JStr s => Return (match String.index 0 k s with
                      | Some _ => true
                      | None => false
                      end)
  | JNull | JBool _ | JInt _ | JFloat _ => Throw TypeError
  end.

(** [x[k]] for a string [k]: only a dictionary is indexed by strings. *)
Definition py_getitem (x : json) (k : string) : outcome json :=
  match x with
  | JDict d =>
      match dict_lookup k d with
      | Some v => Return v
      | None => Throw (Builtin KeyError)
      end
  | _ => Throw TypeError
  end.

(** [isinstance(val, (int, float))]: [bool] is a subclass of [int]. *)
Definition is_numeric (val : json) : bool :=
  match val with
  | JBool _ | JInt _ | JFloat _ => true
  | _ => false
  end.

(** [val < 0] on a numeric value. *)
Definition is_negative (val : json) : bool :=
  match val with
  | JInt z => z <? 0
  | JFloat f => PrimFloat.ltb f 0
  | _ => false
  end.

Definition is_list (val : json) : bool :=
  match val with
  | JList _ => true
  | _ => false
  end.

Definition is_dict (x : json) : bool :=
  match x with
  | JDict _ => true
  | _ => false
  end.

Module Validators.

(** The inner helper [nonneg]: the error message, or [None]. *)
Definition nonneg (name : string) (val : json) : option string :=
  if negb (is_numeric val) then Some (name +:+ " must be numeric")
  else if is_negative val then Some (name +:+ " must be non-negative")
  else None.

(** [for k in keys: if k not in x: errors.append(msg k)] *)
Fixpoint check_keys (msg : string -> string) (keys : list string) (x : json)
    (errors : list string) : outcome (list string) :=
  match keys with
  | [] => Return errors
  | k :: rest =>
      py_in k x ≫= fun present : bool =>
      check_keys msg rest x (if present then errors else errors ++ [msg k])
  end.

(** [if key in x: e = nonneg(name, x[key]); if e: errors.append(e)] *)
Definition check_field (name key : string) (x : json) (errors : list string)
    : outcome (list string) :=
  py_in key x ≫= fun present : bool =>
  if present then
    val ← py_getitem x key;
    mret (match nonneg name val with
          | Some e => errors ++ [e]
          | None => errors
          end)
  else mret errors.

(** The body of the loop over the items. *)
Definition validate_item (idx : nat) (it : json) (errors : list string)
    : outcome (list string) :=
  let tag := "Item[" +:+ (pretty idx +:+ "]") in
  errors ← check_keys (fun k => tag +:+ " missing key: " +:+ k)
                      ["id"; "a"; "D"; "v"] it errors;
  errors ← check_field (tag +:+ ".a") "a" it errors;
  errors ← check_field (tag +:+ ".D") "D" it errors;
  check_field (tag +:+ ".v") "v" it errors.

Fixpoint validate_items (idx : nat) (items : list json) (errors : list string)
    : outcome (list string) :=
  match items with
  | [] => Return errors
  | it :: rest =>
      errors ← validate_item idx it errors;
      validate_items (S idx) rest errors
  end.

Definition validate_instance (data : json) : outcome (list string) :=
  errors ← check_keys (fun key => "Missing key: " +:+ key) ["A"; "r"; "items"]
                      data [];
  py_in "items" data ≫= fun has_items : bool =>
  errors ← (if has_items then
              items ← py_getitem data "items";
              mret (if is_list items then errors
                    else errors ++ ["items must be a list"])
            else mret errors);
  errors ← check_field "A" "A" data errors;
  errors ← check_field "r" "r" data errors;
  py_in "items" data ≫= fun has_items : bool =>
  if has_items then
    items ← py_getitem data "items";
    match items with
    | JList l =>
        validate_items 0 l
          (if bool_decide (length l = 0%nat)
           then errors ++ ["items list must be non-empty"] else errors)
    | _ => mret errors
    end
  else mret errors.

End Validators.

(** What the validator accepts, said directly: a dictionary with numeric,
    non-negative ["A"] and ["r"] and a non-empty list ["items"] of
    dictionaries, each with an ["id"] and numeric, non-negative ["a"],
    ["D"] and ["v"]. *)
Definition numeric_nonneg (val : json) : Prop :=
  is_numeric val = true /\ is_negative val = false.

Definition well_formed_item (it : json) : Prop :=
  exists d a D v,
    it = JDict d /\ is_Some (dict_lookup "id" d)
    /\ dict_lookup "a" d = Some a /\ numeric_nonneg a
    /\ dict_lookup "D" d = Some D /\ numeric_nonneg D
    /\ dict_lookup "v" d = Some v /\ numeric_nonneg v.

Definition well_formed (data : json) : Prop :=
  exists d A r items,
    data = JDict d
    /\ dict_lookup "A" d = Some A /\ numeric_nonneg A
    /\ dict_lookup "r" d = Some r /\ numeric_nonneg r
    /\ dict_lookup "items" d = Some (JList items)
    /\ items <> [] /\ Forall well_formed_item items.

(** ** The loader: [io_utils/input_loader.py] *)

(** The dataclasses as Python builds them: the annotation [id: str] is not
    enforced, an [Item] holds the id the input gives. *)
Record RawItem : Type := mkRawItem {
  raw_id : json;
  raw_a : float;
  raw_D : float;
  raw_v : float
}.

Record RawParams : Type := mkRawParams {
  raw_A : float;
  raw_r : float;
  raw_items : list RawItem
}.

(** The parameter set the solver is embedded for: ids that are strings. *)
Definition as_item (it : RawItem) : option (Item float) :=
  match raw_id it with
  | JStr s => Some (mkItem s (raw_a it) (raw_D it) (raw_v it))
  | _ => None
  end.

Definition as_params (p : RawParams) : option (JRPParams float) :=
  items ← mapM as_item (raw_items p);
  Some (mkParams (raw_A p) (raw_r p) items).

Module Loader.

Section Loader.

(** Two functions of the library are taken as they come: [float] on a
    string, and the decoding and parsing of [load_json_bytes]. *)
Variable float_of_str : string -> result float.
Variable load_json_bytes : list Byte.byte -> outcome json.

(** [float(val)]: an [int] beyond the range of the floats raises
    [OverflowError]. *)
Definition py_float (val : json) : outcome float :=
  match val with
  | JBool b => Return (if b then 1%float else 0%float)
  | JInt z =>
      match Prim2SF (Binary64.int_to_float z) with
      | S754_infinity _ => Throw (Builtin OverflowError)
      | _ => Return (Binary64.int_to_float z)
      end
  | JFloat f => Return f
  | JStr s =>
      match float_of_str s with
      | Ok f => Return f
      | Raise e => Throw (Builtin e)
      end
  | JNull | JList _ | JDict _ => Throw TypeError
  end.

(** [for it in x]: the elements of a list, the keys of a dictionary, the
    characters of a string. *)
Definition py_iter (x : json) : outcome (list json) :=
  match x with
  | JList l => Return l
  | JDict d => Return (map (fun p => JStr (fst p)) d)
  | JStr s =>
      Return (map (fun c => JStr (String c EmptyString)) (String.list_ascii_of_string s))
  | JNull | JBool _ | JInt _ | JFloat _ => Throw TypeError
  end.

Definition to_item (it : json) : outcome RawItem :=
  id ← py_getitem it "id";
  a ← py_getitem it "a" ≫= py_float;
  D ← py_getitem it "D" ≫= py_float;
  v ← py_getitem it "v" ≫= py_float;
  mret (mkRawItem id a D v).

Definition to_params_struct (data : json) : outcome RawParams :=
  raw ← py_getitem data "items" ≫= py_iter;
  items ← mapM to_item raw;
  A ← py_getitem data "A" ≫= py_float;
  r ← py_getitem data "r" ≫= py_float;
  mret (mkRawParams A r items).

Definition load_and_validate_from_json (file_bytes : list Byte.byte)
    : outcome (option RawParams * json * list string) :=
  data ← load_json_bytes file_bytes;
  errors ← Validators.validate_instance data;
  params ← match errors with
           | [] => Some <$> to_params_struct data
           | _ => mret None
           end;
  mret (params, data, errors).

End Loader.

End Loader.

(** ** The comparison helper of [app.py] *)

Record AppComparison (F : Type) : Type := mkAppCmp {
  app_T_star_diff : F;
  app_cost_diff : F;
  app_better : string
}.

Arguments mkAppCmp {F} _ _ _.
Arguments app_T_star_diff {F} _.
Arguments app_cost_diff {F} _.
Arguments app_better {F} _.

Module App.

Section App.
Context {F : Type} `{PyFloat F}.

(** The subtraction of the cycle times comes first, and [None - x] raises
    [TypeError]. *)
Definition compare_policies (sol1 sol2 : Solution F) : outcome (AppComparison F) :=
  match sol_T_star sol1, sol_T_star sol2 with
  | Some t1, Some t2 =>
      Return (mkAppCmp (fsub t1 t2)
                       (fsub (sol_total_cost sol1) (sol_total_cost sol2))
                       (if fltb (sol_total_cost sol1) (sol_total_cost sol2)
                        then "Instance 1" else "Instance 2"))
  | _, _ => Throw TypeError
  end.

End App.

End App.

#[local] Set Warnings "-inexact-float".

(** The demo instance of [app.py], as raw input. *)
Definition raw_item (id : string) (a D v : float) : json :=
  JDict [("id", JStr id); ("a", JFloat a); ("D", JFloat D); ("v", JFloat v)].

Definition raw_example_small : json :=
  JDict [("instance_name", JStr "Small_Example");
         ("A", JFloat 40); ("r", JFloat 0.24);
         ("items", JList [raw_item "1L" 15 500 2;
                          raw_item "5L" 15 300 2.5;
                          raw_item "10L" 15 200 3])].

(** ** Three degenerate instances *)

(** A validated instance whose second item has an infinite setup cost. *)
Definition infinite_setup_example : JRPParams float :=
  mkParams 0%float 1%float
    [ mkItem "base" 1%float 1%float 1%float;
      mkItem "x" infinity 1%float 1%float ].


(** A validated instance whose setup costs are the smallest positive
    float, [2^-1074], and three times that. *)
Definition tiny_setups_example : JRPParams float :=
  mkParams 0%float 0x1p-1000%float
    [ mkItem "p" 0x3p-1074%float 1%float 1%float;
      mkItem "q" 0x1p-1074%float 2%float 1%float ].

(** * Proofs *)

(** ** The result monad *)

Lemma bind_Ok {A B : Type} (m : result A) (k : A -> result B) (y : B) :
  m ≫= k = Ok y -> exists x, m = Ok x /\ k x = Ok y.
Proof. destruct m as [x|e]; simpl; [eauto | discriminate]. Qed.

Lemma dict_get_Ok {A : Type} (x : option A) (y : A) :
  dict_get x = Ok y -> x = Some y.
Proof. destruct x; simpl; congruence. Qed.

(** Takes a successful run apart, one bind at a time. *)
Ltac inv_ok :=
  repeat match goal with
  | H : Raise _ = Ok _ |- _ => discriminate H
  | H : Ok _ = Ok _ |- _ => injection H as H; try subst
  | H : mret _ = Ok _ |- _ => injection H as H; try subst
  | H : (_ ≫= _) = Ok _ |- _ =>
      let x := fresh "x" in
      let E := fresh "E" in
      apply bind_Ok in H; destruct H as (x & E & H)
  | H : (if ?b then Raise _ else _) = Ok _ |- _ =>
      let E := fresh "E" in
      destruct b eqn:E; [discriminate H|]
  | H : dict_get _ = Ok _ |- _ => apply dict_get_Ok in H
  end.

Lemma mapM_Ok_Forall2 {A B : Type} (f : A -> result B) (l : list A) (ys : list B) :
  mapM f l = Ok ys <-> Forall2 (fun x y => f x = Ok y) l ys.
Proof.
  revert ys; induction l as [|x l IH]; intros ys; simpl.
  - split.
    + intros E; inv_ok. constructor.
    + intros E; inversion E; reflexivity.
  - split.
    + intros E; inv_ok. constructor; [assumption|]. now apply IH.
    + intros E; inversion E as [|? y ? ys' Hx Hl]; subst.
      rewrite Hx; simpl. apply IH in Hl. now rewrite Hl.
Qed.

(** When every failure of [f] is the same exception, a list with a
    failing element fails with it. *)
Lemma mapM_Raise {A B : Type} (f : A -> result B) (l : list A) (x : A)
    (err : py_error) :
  (forall y e, f y = Raise e -> e = err) ->
  x ∈ l -> f x = Raise err -> mapM f l = Raise err.
Proof.
  intros Hone Hin Hx; induction l as [|y l IH]; [inversion Hin|].
  simpl. destruct (f y) as [z|e] eqn:Ey; simpl.
  - apply elem_of_cons in Hin as [->|Hin]; [congruence|].
    now rewrite (IH Hin).
  - now rewrite (Hone _ _ Ey).
Qed.

(** ** Sensitivity sweeps *)

Section SweepFacts.
Context {F : Type} `{PyFloat F}.

(** The loop solves every sample once, in order, and appends the sample
    and the cost of its solution. *)
Lemma sweep_loop_solved (local : F -> JRPParams F) (values : list F) :
  (forall s, s ∈ values -> exists sol, find_formula_policy (local s) = Ok sol) ->
  forall x_vals y_vals calls,
  exists costs,
    sweep_loop local values x_vals y_vals calls
      = (calls ++ map local values, Ok (x_vals ++ values, y_vals ++ costs))
    /\ Forall2 (fun s c => exists sol,
                  find_formula_policy (local s) = Ok sol /\ c = sol_total_cost sol)
               values costs.
Proof.
  induction values as [|s values IH]; intros Hall x_vals y_vals calls.
  - exists []. simpl. rewrite !app_nil_r. split; [reflexivity | constructor].
  - destruct (Hall s) as [sol Hsol]; [left|].
    destruct (IH (fun s' Hs' => Hall s' (list_elem_of_further _ _ _ Hs'))
                 (x_vals ++ [s]) (y_vals ++ [sol_total_cost sol])
                 (calls ++ [local s])) as (costs & Hrun & Hcosts).
    exists (sol_total_cost sol :: costs). simpl. rewrite Hsol, Hrun.
    rewrite <- !app_assoc. simpl. split; [reflexivity|].
    constructor; [eauto | assumption].
Qed.

(** Under one of the three keys the rebuilt item list is the old one with
    the field of the named item set. *)
Lemma replace_item_field_map (item_id key : string) (val : F) (items : list (Item F)) :
  key ∈ valid_keys ->
  replace_item_field item_id key val items
  = map (fun it => if String.eqb (it_id it) item_id
                   then with_field key val it else it) items.
Proof.
  intros Hkey. unfold replace_item_field.
  induction items as [|it items IH]; [reflexivity|].
  change ((it :: items) ≫= ?f) with (f it ++ (items ≫= f)).
  rewrite IH. simpl. destruct (String.eqb (it_id it) item_id); [|reflexivity].
  unfold with_field, valid_keys in *.
  repeat (apply elem_of_cons in Hkey as [->|Hkey]; [reflexivity|]).
  inversion Hkey.
Qed.

Lemma sweep_calls_substitute (params : JRPParams F) (target : SweepTarget)
    (samples : list F) :
  match target with OverItem _ key => key ∈ valid_keys | _ => True end ->
  exists local,
    (forall s, local s = substitute target s params)
    /\ sweep params target samples = sweep_loop local samples [] [] [].
Proof.
  destruct target as [| |item_id key]; simpl; intros Hkey.
  - eexists; split; [|reflexivity]. reflexivity.
  - eexists; split; [|reflexivity]. reflexivity.
  - unfold sensitivity_curve_over_item. rewrite bool_decide_eq_true_2 by assumption.
    eexists; split; [|reflexivity]. intros s. simpl.
    now rewrite replace_item_field_map.
Qed.

End SweepFacts.

(** ** The joint policy: structure of a successful run *)

Section JointFacts.
Context {F : Type} `{PyFloat F}.

Local Open Scope py_scope.

(** *** The sort *)

Lemma insert_by_key_perm {A : Type} (key : A -> F) (x : A) (l : list A) :
  insert_by_key key x l ≡ₚ x :: l.
Proof.
  induction l as [|y l IH]; simpl; [reflexivity|].
  destruct (fltb (key y) (key x)); [|reflexivity].
  rewrite IH. apply Permutation_swap.
Qed.

Lemma sort_by_key_perm {A : Type} (key : A -> F) (l : list A) :
  sort_by_key key l ≡ₚ l.
Proof.
  induction l as [|x l IH]; simpl; [reflexivity|].
  rewrite insert_by_key_perm. now rewrite IH.
Qed.

(** *** Ranking *)

Lemma rank_items_inv (items ordered : list (Item F)) :
  rank_items items = Ok ordered ->
  exists ratios : list (F * Item F),
    Forall2 (fun it p => ratio it = Ok (fst p) /\ snd p = it) items ratios
    /\ ordered = map snd (sort_by_key fst ratios).
Proof.
  unfold rank_items; intros E; inv_ok.
  eexists; split; [|reflexivity].
  apply mapM_Ok_Forall2 in E0. eapply Forall2_impl; [exact E0|].
  intros it p Hp; simpl in Hp. inv_ok. now split.
Qed.

Lemma ratios_snd (items : list (Item F)) (ratios : list (F * Item F)) :
  Forall2 (fun it p => ratio it = Ok (fst p) /\ snd p = it) items ratios ->
  map snd ratios = items.
Proof.
  induction 1 as [|it p items ratios [_ Hp] _ IH]; simpl; [reflexivity|].
  now rewrite Hp, IH.
Qed.

Lemma rank_items_perm (items ordered : list (Item F)) :
  rank_items items = Ok ordered -> ordered ≡ₚ items.
Proof.
  intros (ratios & Hr & ->)%rank_items_inv.
  rewrite <- (ratios_snd _ _ Hr). apply fmap_Permutation, sort_by_key_perm.
Qed.

(** *** Multipliers *)

Lemma multipliers_inv (A : F) (ordered : list (Item F)) (m_list : list Z) :
  multipliers A ordered = Ok m_list ->
  exists base rest ms,
    ordered = base :: rest /\ m_list = 1%Z :: ms
    /\ Forall2 (fun it m => multiplier A base it = Ok m) rest ms.
Proof.
  unfold multipliers; intros E.
  destruct ordered as [|base rest]; simpl in E; [discriminate|].
  apply bind_Ok in E as (ms & Hms & E). injection E as <-.
  exists base, rest, ms. repeat split. now apply mapM_Ok_Forall2.
Qed.

Lemma multiplier_ge_1 (A : F) (base it : Item F) (m : Z) :
  multiplier A base it = Ok m -> (1 <= m)%Z.
Proof. unfold multiplier; intros E; inv_ok. lia. Qed.

Lemma multipliers_length (A : F) (ordered : list (Item F)) (m_list : list Z) :
  multipliers A ordered = Ok m_list -> length m_list = length ordered.
Proof.
  intros (base & rest & ms & -> & -> & Hms)%multipliers_inv; simpl.
  f_equal. symmetry. eapply Forall2_length, Hms.
Qed.

Lemma multipliers_ge_1 (A : F) (ordered : list (Item F)) (m_list : list Z) :
  multipliers A ordered = Ok m_list -> Forall (fun m => (1 <= m)%Z) m_list.
Proof.
  intros (base & rest & ms & -> & -> & Hms)%multipliers_inv.
  constructor; [lia|].
  induction Hms; constructor; eauto using multiplier_ge_1.
Qed.

(** *** Per-item metrics and the dictionary keyed by id *)

Lemma item_metrics_id_m (T_star r : F) (it : Item F) (m : Z) (res : ItemResult F) :
  item_metrics T_star r it m = Ok res -> res_id res = it_id it /\ res_m res = m.
Proof. unfold item_metrics; intros E; inv_ok. now split. Qed.

Lemma compute_item_metrics_inv (items : list (Item F)) (T_star : F)
    (m_list : list Z) (r : F) (item_results : list (ItemResult F)) :
  compute_item_metrics items T_star m_list r = Ok item_results ->
  Forall2 (fun p res => item_metrics T_star r (fst p) (snd p) = Ok res)
          (zip items m_list) item_results.
Proof.
  unfold compute_item_metrics; intros E%mapM_Ok_Forall2.
  eapply Forall2_impl; [exact E|]. now intros [it m] res.
Qed.

Lemma compute_item_metrics_ids (items : list (Item F)) (T_star : F)
    (m_list : list Z) (r : F) (item_results : list (ItemResult F)) :
  length m_list = length items ->
  compute_item_metrics items T_star m_list r = Ok item_results ->
  map res_id item_results = map it_id items.
Proof.
  intros Hlen E%compute_item_metrics_inv.
  revert m_list item_results Hlen E.
  induction items as [|it items IH]; intros [|m m_list] item_results Hlen E;
    simpl in *; try discriminate.
  - now inversion E.
  - inversion E as [|? res ? results Hres Hrest]; subst; simpl.
    apply item_metrics_id_m in Hres as [-> _]. f_equal.
    apply (IH m_list); [lia | assumption].
Qed.

Lemma index_by_id_foldl_other (l : list (ItemResult F))
    (d : gmap string (ItemResult F)) (k : string) :
  k ∉ map res_id l ->
  foldl (fun d res => <[res_id res := res]> d) d l !! k = d !! k.
Proof.
  revert d; induction l as [|res l IH]; intros d Hk; simpl; [reflexivity|].
  simpl in Hk. apply not_elem_of_cons in Hk as [Hne Hk].
  rewrite IH by assumption. now apply lookup_insert_ne.
Qed.

Lemma index_by_id_foldl_Some (l : list (ItemResult F))
    (d : gmap string (ItemResult F)) (k : string) (r : ItemResult F) :
  foldl (fun d res => <[res_id res := res]> d) d l !! k = Some r ->
  (r ∈ l /\ res_id r = k) \/ d !! k = Some r.
Proof.
  revert d; induction l as [|res l IH]; intros d E; simpl in *; [now right|].
  apply IH in E as [[Hin Hid]|E].
  - left; split; [now right | assumption].
  - destruct (decide (res_id res = k)) as [<-|Hne].
    + rewrite lookup_insert_eq in E. injection E as <-. left; split; [left | reflexivity].
    + rewrite lookup_insert_ne in E by assumption. now right.
Qed.

(** Every value sits under its own id, and every id met has a value. *)
Lemma index_by_id_Some (l : list (ItemResult F)) (k : string) (r : ItemResult F) :
  index_by_id l !! k = Some r -> r ∈ l /\ res_id r = k.
Proof.
  intros [E|E]%index_by_id_foldl_Some; [assumption|].
  now rewrite lookup_empty in E.
Qed.

Lemma index_by_id_is_Some (l : list (ItemResult F)) (k : string) :
  k ∈ map res_id l -> is_Some (index_by_id l !! k).
Proof.
  unfold index_by_id. generalize (∅ : gmap string (ItemResult F)).
  induction l as [|res l IH]; intros d Hk; simpl in *; [inversion Hk|].
  destruct (decide (k ∈ map res_id l)) as [Hin|Hout]; [now apply IH|].
  rewrite index_by_id_foldl_other by assumption.
  apply elem_of_cons in Hk as [->|Hk]; [|contradiction].
  rewrite lookup_insert_eq. eauto.
Qed.

(** With distinct ids, each result is found again under its id. *)
Lemma index_by_id_NoDup (l : list (ItemResult F)) (res : ItemResult F) :
  NoDup (map res_id l) -> res ∈ l -> index_by_id l !! res_id res = Some res.
Proof.
  intros Hnd Hin.
  destruct (index_by_id_is_Some l (res_id res)) as [r Hr].
  { apply list_elem_of_fmap. eauto. }
  rewrite Hr. f_equal.
  apply index_by_id_Some in Hr as [Hr Hid].
  apply list_elem_of_lookup in Hr as [i Hi], Hin as [j Hj].
  assert (i = j) as ->; [|congruence].
  eapply NoDup_lookup; [exact Hnd| |].
  - rewrite list_lookup_fmap, Hi. reflexivity.
  - rewrite list_lookup_fmap, Hj. simpl. now rewrite Hid.
Qed.

End JointFacts.

Section JointRun.
Context {F : Type} `{PyFloat F}.

(** The steps of a successful [find_formula_policy]. *)
Lemma find_formula_policy_inv (params : JRPParams F) (sol : Solution F) :
  find_formula_policy params = Ok sol ->
  exists ordered m_list T_star item_results cb total,
    rank_items (params_items params) = Ok ordered
    /\ multipliers (params_A params) ordered = Ok m_list
    /\ cycle_time_T (params_A params) (params_r params) ordered m_list = Ok T_star
    /\ compute_item_metrics ordered T_star m_list (params_r params) = Ok item_results
    /\ total_cost (params_A params) (params_r params) ordered T_star m_list = Ok cb
    /\ cb_total cb = Some total
    /\ Forall2 (fun it res => index_by_id item_results !! it_id it = Some res)
               (params_items params) (sol_item_results sol)
    /\ sol = mkSol (Some T_star) (map res_m (sol_item_results sol))
                   (sol_item_results sol) total cb "formula".
Proof.
  unfold find_formula_policy; intros E.
  apply bind_Ok in E as (ordered & Hrank & E).
  apply bind_Ok in E as (m_list & Hm & E).
  apply bind_Ok in E as (T_star & HT & E).
  apply bind_Ok in E as (item_results & Hres & E).
  apply bind_Ok in E as (cb & Hcb & E).
  apply bind_Ok in E as (ordered_results & Hord & E).
  apply bind_Ok in E as (total & Htot & E).
  injection E as <-. simpl.
  exists ordered, m_list, T_star, item_results, cb, total.
  repeat split; try assumption.
  - now apply dict_get_Ok.
  - apply mapM_Ok_Forall2 in Hord. eapply Forall2_impl; [exact Hord|].
    intros it res Hget. now apply dict_get_Ok.
Qed.

(** Re-projection: with distinct ids, position [i] of the output holds the
    metrics and the multiplier computed for the item at position [i] of
    the input. *)
Lemma find_formula_policy_reproject (params : JRPParams F) (sol : Solution F) :
  find_formula_policy params = Ok sol ->
  unique_ids params ->
  exists ordered m_list T_star,
    rank_items (params_items params) = Ok ordered
    /\ multipliers (params_A params) ordered = Ok m_list
    /\ sol_T_star sol = Some T_star
    /\ forall i it, params_items params !! i = Some it ->
       exists j m res,
         ordered !! j = Some it /\ m_list !! j = Some m
         /\ item_metrics T_star (params_r params) it m = Ok res
         /\ sol_item_results sol !! i = Some res
         /\ sol_m sol !! i = Some m.
Proof.
  intros Hsol Huniq.
  destruct (find_formula_policy_inv _ _ Hsol)
    as (ordered & m_list & T_star & item_results & cb & total
        & Hrank & Hm & _ & Hres & _ & _ & Hord & Esol).
  exists ordered, m_list, T_star.
  repeat split; try assumption; [now rewrite Esol|].
  intros i it Hi.
  pose proof (rank_items_perm _ _ Hrank) as Hperm.
  pose proof (multipliers_length _ _ _ Hm) as Hlen.
  assert (it ∈ ordered) as Hin.
  { rewrite Hperm. eapply list_elem_of_lookup_2, Hi. }
  apply list_elem_of_lookup in Hin as [j Hj].
  destruct (lookup_lt_is_Some_2 m_list j) as [m Hmj].
  { rewrite Hlen. eapply lookup_lt_Some, Hj. }
  pose proof (compute_item_metrics_inv _ _ _ _ _ Hres) as Hall.
  destruct (Forall2_lookup_l _ _ _ j (it, m) Hall) as (res & Hrj & Hmet).
  { apply lookup_zip_with_Some. eauto. }
  simpl in Hmet. destruct (item_metrics_id_m _ _ _ _ _ Hmet) as [Hid Hresm].
  assert (index_by_id item_results !! it_id it = Some res) as Hidx.
  { rewrite <- Hid. apply index_by_id_NoDup.
    - rewrite (compute_item_metrics_ids _ _ _ _ _ Hlen Hres).
      unfold unique_ids in Huniq. now rewrite Hperm.
    - eapply list_elem_of_lookup_2, Hrj. }
  destruct (Forall2_lookup_l _ _ _ i it Hord Hi) as (res' & Hri & Hget).
  assert (res' = res) as -> by congruence.
  exists j, m, res. repeat split; try assumption.
  rewrite Esol; simpl. rewrite list_lookup_fmap, Hri. simpl. now rewrite Hresm.
Qed.

(** Whatever the ids, the output has one multiplier per input item, each
    of them one of the multipliers computed in ranking order. *)
Lemma find_formula_policy_multipliers (params : JRPParams F) (sol : Solution F) :
  find_formula_policy params = Ok sol ->
  exists ordered m_list,
    rank_items (params_items params) = Ok ordered
    /\ multipliers (params_A params) ordered = Ok m_list
    /\ length (sol_m sol) = length (params_items params)
    /\ forall i m, sol_m sol !! i = Some m -> m ∈ m_list.
Proof.
  intros Hsol.
  destruct (find_formula_policy_inv _ _ Hsol)
    as (ordered & m_list & T_star & item_results & cb & total
        & Hrank & Hm & _ & Hres & _ & _ & Hord & Esol).
  exists ordered, m_list. repeat split; try assumption.
  - rewrite Esol; simpl. rewrite length_fmap. symmetry. eapply Forall2_length, Hord.
  - intros i m. rewrite Esol; simpl. rewrite list_lookup_fmap.
    destruct (sol_item_results sol !! i) as [res|] eqn:Hi; [|discriminate].
    intros [= <-].
    destruct (Forall2_lookup_r _ _ _ _ _ Hord Hi) as (it & _ & Hidx).
    apply index_by_id_Some in Hidx as [[j Hj]%list_elem_of_lookup _].
    pose proof (compute_item_metrics_inv _ _ _ _ _ Hres) as Hall.
    destruct (Forall2_lookup_r _ _ _ _ _ Hall Hj) as ([it' m] & Hz & Hmet).
    simpl in Hmet. apply item_metrics_id_m in Hmet as [_ ->].
    apply lookup_zip_with_Some in Hz as (? & ? & [= <- <-] & _ & Hmj).
    eapply list_elem_of_lookup_2, Hmj.
Qed.

End JointRun.

(** ** The exact model *)

Module ExactFacts.
Import Exact.

Local Open Scope R_scope.

Lemma Reqb_true (x y : R) : Reqb x y = true <-> x = y.
Proof. unfold Reqb; destruct (Req_dec_T x y); split; congruence. Qed.

Lemma Reqb_false (x y : R) : Reqb x y = false <-> x <> y.
Proof. unfold Reqb; destruct (Req_dec_T x y); split; congruence. Qed.

Lemma Rltb_true (x y : R) : Rltb x y = true <-> x < y.
Proof. unfold Rltb; destruct (Rlt_dec x y); split; intros; try lra; congruence. Qed.

Lemma Rltb_false (x y : R) : Rltb x y = false <-> y <= x.
Proof. unfold Rltb; destruct (Rlt_dec x y); split; intros; try lra; congruence. Qed.

Lemma Rleb_false (x y : R) : Rleb x y = false <-> y < x.
Proof. unfold Rleb; destruct (Rle_dec x y); split; intros; try lra; congruence. Qed.

(** Reads the operations of the interface as those of [R]. *)
Ltac exact_ops :=
  cbn [of_int fadd fsub fmul fdiv fsqrt feqb fltb fleb fround exact] in *.

Lemma py_div_Ok (x y z : R) : py_div x y = Ok z <-> y <> 0 /\ z = x / y.
Proof.
  unfold py_div; simpl. destruct (Reqb y 0) eqn:E.
  - apply Reqb_true in E. split; [discriminate | tauto].
  - apply Reqb_false in E. split; [intros [= <-]; tauto | intros [_ ->]; reflexivity].
Qed.

Lemma math_sqrt_Ok (x z : R) : math_sqrt x = Ok z <-> 0 <= x /\ z = R_sqrt.sqrt x.
Proof.
  unfold math_sqrt; simpl. destruct (Rltb x 0) eqn:E.
  - apply Rltb_true in E. split; [discriminate | lra].
  - apply Rltb_false in E. split; [intros [= <-]; tauto | intros [_ ->]; reflexivity].
Qed.

Lemma nonneg_true (x : R) : nonneg x = true <-> 0 <= x.
Proof.
  unfold nonneg; simpl. rewrite negb_true_iff. apply Rltb_false.
Qed.

(** *** Rounding to the nearest integer, ties to even *)

Lemma round_half_even_tie (k : Z) :
  round_half_even (IZR k + 1 / 2) = if Z.even k then k else (k + 1)%Z.
Proof.
  unfold round_half_even.
  assert (Zfloor (IZR k + 1 / 2) = k) as ->.
  { apply Zfloor_eq. lra. }
  replace (IZR k + 1 / 2 - IZR k) with (1 / 2) by lra.
  assert (Rltb (1 / 2) (1 / 2) = false) as -> by (apply Rltb_false; lra).
  reflexivity.
Qed.

Lemma round_half_even_unit (x : R) :
  0 <= x <= 1 -> (0 <= round_half_even x <= 1)%Z.
Proof.
  intros Hx. unfold round_half_even.
  destruct (Req_dec_T x 1) as [->|Hne].
  - replace (Zfloor 1) with 1%Z by (symmetry; apply Zfloor_eq; simpl; lra).
    assert (Rltb (1 - 1) (1 / 2) = true) as -> by (apply Rltb_true; lra). lia.
  - replace (Zfloor x) with 0%Z by (symmetry; apply Zfloor_eq; simpl; lra).
    destruct (Rltb (x - 0) (1 / 2)); [lia|].
    destruct (Rltb (1 / 2) (x - 0)); simpl; lia.
Qed.

Lemma valid_item_exact (it : Item R) :
  valid_item it = true -> 0 <= it_a it /\ 0 <= it_D it /\ 0 <= it_v it.
Proof.
  unfold valid_item. rewrite !andb_true_iff, !nonneg_true. tauto.
Qed.

Lemma validate_instance_exact (params : JRPParams R) :
  validate_instance params = true ->
  0 <= params_A params /\ 0 <= params_r params /\ params_items params <> []
  /\ forall it, it ∈ params_items params ->
       0 <= it_a it /\ 0 <= it_D it /\ 0 <= it_v it.
Proof.
  unfold validate_instance. rewrite !andb_true_iff, negb_true_iff.
  intros [[[HA Hr] Hne] Hall].
  apply nonneg_true in HA, Hr. apply bool_decide_eq_false in Hne.
  repeat split; try assumption; rewrite forallb_forall in Hall;
    match goal with
    | Hin : _ ∈ _ |- _ => apply list_elem_of_In, Hall, valid_item_exact in Hin
    end; tauto.
Qed.

(** *** Running the solver on concrete reals *)

Lemma py_div_exact (x y : R) : y <> 0 -> py_div x y = Ok (x / y).
Proof. intros Hy. now apply py_div_Ok. Qed.

Lemma math_sqrt_square (c x : R) : 0 <= c -> x = c * c -> math_sqrt x = Ok c.
Proof.
  intros Hc ->. apply math_sqrt_Ok. split; [nra|]. symmetry. now apply sqrt_square.
Qed.

(** Steps through binds, list traversals and the divisions whose divisor
    is visibly not zero. *)
Ltac exact_eval :=
  repeat first
    [ rewrite py_div_exact by (exact_ops; lra)
    | progress cbn [mbind result_bind mret result_ret mapM zip zip_with map
                    fmap list_fmap tail it_a it_D it_v it_id
                    params_A params_r params_items fst snd] ].

End ExactFacts.

(** ** Multipliers of the joint policy (exact arithmetic) *)

Section ExactMultipliers.
Import Exact ExactFacts.

Local Open Scope R_scope.

(** An item whose ratio does not exceed the base item's gets a candidate
    of at most 1, hence the multiplier 1. *)
Lemma multiplier_low_ratio (A : R) (base it : Item R) (q qb : R) (m : Z) :
  0 <= A -> 0 <= it_a base -> 0 <= it_D base -> 0 <= it_v base ->
  0 <= it_a it -> 0 <= it_D it -> 0 <= it_v it ->
  ratio it = Ok q -> ratio base = Ok qb -> q <= qb ->
  multiplier A base it = Ok m -> m = 1%Z.
Proof.
  intros HA Hab HDb Hvb Ha HD Hv Hq Hqb Hle Hm.
  unfold ratio in Hq, Hqb. simpl in Hq, Hqb.
  apply py_div_Ok in Hq as [Hden ->], Hqb as [Hdenb ->].
  unfold multiplier, m_candidate in Hm.
  apply bind_Ok in Hm as (m_val & Hval & Hm).
  apply bind_Ok in Hval as (qq & Hqq & Hval).
  apply bind_Ok in Hm as (n & Hn & Hm).
  simpl in Hqq, Hn, Hm. injection Hn as <-. injection Hm as <-.
  apply py_div_Ok in Hqq as [Hdd ->]. apply math_sqrt_Ok in Hval as [Hnn ->].
  set (P := it_D it * it_v it) in *. set (Pb := it_D base * it_v base) in *.
  assert (0 < P) as HP by (assert (0 <= P) by (unfold P; nra); lra).
  assert (0 < Pb) as HPb by (assert (0 <= Pb) by (unfold Pb; nra); lra).
  assert (it_a it * Pb <= it_a base * P) as Hcross.
  { apply (Rmult_le_compat_r (P * Pb)) in Hle; [|nra].
    replace (it_a it / P * (P * Pb)) with (it_a it * Pb) in Hle by (field; lra).
    replace (it_a base / Pb * (P * Pb)) with (it_a base * P) in Hle by (field; lra).
    exact Hle. }
  assert (0 < (A + it_a base) * P) as Hpos.
  { assert (0 <= (A + it_a base) * P) by nra. lra. }
  assert (it_a it * it_D base * it_v base / ((A + it_a base) * P) <= 1) as Hone.
  { assert (0 < A + it_a base) by nra.
    apply Rmult_le_reg_r with (r := (A + it_a base) * P); [exact Hpos|].
    replace (it_a it * it_D base * it_v base / ((A + it_a base) * P)
             * ((A + it_a base) * P))
      with (it_a it * it_D base * it_v base) by (field; lra).
    unfold Pb in Hcross. nra. }
  assert (R_sqrt.sqrt (it_a it * it_D base * it_v base / ((A + it_a base) * P)) <= 1)
    as Hsq.
  { etransitivity; [apply sqrt_le_1_alt, Hone|]. rewrite sqrt_1. lra. }
  pose proof (sqrt_pos (it_a it * it_D base * it_v base / ((A + it_a base) * P))) as H0.
  pose proof (round_half_even_unit _ (conj H0 Hsq)). lia.
Qed.

End ExactMultipliers.

Section ExactJoint.
Import Exact ExactFacts.

Local Open Scope R_scope.

(** In exact arithmetic, on validated parameters with distinct ids, ties
    do not matter: every item whose ratio [a/(D*v)] is the smallest of
    all, the base item or not, is assigned the multiplier 1. *)
Lemma joint_multipliers_tied_exact (params : JRPParams R) (sol : Solution R) :
  validate_instance params = true ->
  unique_ids params ->
  find_formula_policy params = Ok sol ->
  forall i it q,
    params_items params !! i = Some it ->
    ratio it = Ok q ->
    (forall it' q', it' ∈ params_items params -> ratio it' = Ok q' -> q <= q') ->
    sol_m sol !! i = Some 1%Z.
Proof.
  intros Hvalid Huniq Hsol i it q Hit Hq Hmin.
  destruct (validate_instance_exact _ Hvalid) as (HA & _ & _ & Hitems).
  destruct (find_formula_policy_reproject _ _ Hsol Huniq)
    as (ordered & m_list & T_star & Hrank & Hm & _ & Hproj).
  destruct (Hproj i it Hit) as (j & m & res & Hj & Hmj & _ & _ & ->).
  f_equal.
  destruct (multipliers_inv _ _ _ Hm) as (base & rest & ms & -> & -> & Hms).
  destruct j as [|j]; [simpl in Hmj; congruence|]. simpl in Hj, Hmj.
  pose proof (Forall2_lookup_lr _ _ _ _ _ _ Hms Hj Hmj) as Hmult.
  assert (base ∈ params_items params) as Hbase.
  { rewrite <- (rank_items_perm _ _ Hrank). left. }
  destruct (rank_items_inv _ _ Hrank) as (ratios & Hr & _).
  apply list_elem_of_lookup in Hbase as [ib Hib].
  destruct (Forall2_lookup_l _ _ _ _ _ Hr Hib) as ([qb ?] & _ & Hqb & _).
  simpl in Hqb.
  destruct (Hitems base) as (? & ? & ?); [eapply list_elem_of_lookup_2, Hib|].
  destruct (Hitems it) as (? & ? & ?); [eapply list_elem_of_lookup_2, Hit|].
  eapply (multiplier_low_ratio (params_A params) base it q qb); eauto.
  eapply Hmin; [eapply list_elem_of_lookup_2, Hib | exact Hqb].
Qed.

End ExactJoint.

(** ** The total cost and the cost breakdown *)

Section JointCost.
Context {F : Type} `{PyFloat F}.

Local Open Scope py_scope.



End JointCost.

(** ** The cost breakdown adds up in exact arithmetic *)

Section ExactCost.
Import Exact ExactFacts.

Local Open Scope R_scope.

Lemma py_sum_foldl_div (T acc : R) (xs ys : list R) :
  Forall2 (fun x y => y = x / T) xs ys ->
  foldl Rplus (acc / T) ys = foldl Rplus acc xs / T.
Proof.
  intros Hall; revert acc; induction Hall as [|x y xs ys -> _ IH]; intros acc;
    simpl; [reflexivity|].
  rewrite <- IH. f_equal. unfold Rdiv. ring.
Qed.

Lemma py_sum_div (T : R) (xs ys : list R) :
  Forall2 (fun x y => y = x / T) xs ys -> py_sum ys = py_sum xs / T.
Proof.
  intros Hall. unfold py_sum; simpl.
  rewrite <- (py_sum_foldl_div T 0 xs ys Hall). f_equal. unfold Rdiv. ring.
Qed.

(** The two lists of per-item setup costs [total_cost] builds differ by
    the factor [1/T]. *)
Lemma item_setups_div (T : R) (pairs : list (Item R * Z)) (setups item_setups : list R) :
  T <> 0 ->
  mapM (fun '(it, m) => py_div (it_a it) (of_int m)) pairs = Ok setups ->
  mapM (fun '(it, m) => py_div (it_a it) (fmul (of_int m) T)) pairs = Ok item_setups ->
  Forall2 (fun x y => y = x / T) setups item_setups.
Proof.
  intros HT H1%mapM_Ok_Forall2 H2%mapM_Ok_Forall2.
  revert item_setups H2.
  induction H1 as [|[it m] s pairs setups Hs _ IH]; intros item_setups H2.
  - inversion H2. constructor.
  - inversion H2 as [|? s' ? rest Hs' Hrest]; subst.
    constructor; [|now apply IH].
    simpl in Hs, Hs'. apply py_div_Ok in Hs as [Hm ->], Hs' as [_ ->].
    field. now split.
Qed.

Lemma total_cost_adds_up (A r : R) (items : list (Item R)) (T : R)
    (m_list : list Z) (cb : CostBreakdown R) :
  total_cost A r items T m_list = Ok cb ->
  exists total fam,
    cb_total cb = Some total /\ cb_family_setup cb = Some fam
    /\ total = fam + cb_item_setup cb + cb_holding cb.
Proof.
  unfold total_cost; intros E.
  apply bind_Ok in E as (setups & Hsetups & E).
  apply bind_Ok in E as (group & Hgroup & E).
  apply bind_Ok in E as (fam & Hfam & E).
  apply bind_Ok in E as (item_setups & Hitem & E).
  injection E as <-. simpl.
  apply py_div_Ok in Hgroup as [HT ->], Hfam as [_ ->].
  do 2 eexists; repeat split.
  rewrite (py_sum_div T setups item_setups)
    by (eapply item_setups_div; eauto).
  exact_ops. field. exact HT.
Qed.

(** Were the arithmetic exact, the two paths would meet: over the reals
    the total cost of a solved joint instance is the sum of the three
    entries of its cost breakdown. Python's floats are not this model; what
    holds of them is stated in the section before and, at two instances, in
    the section on floats. *)
Lemma joint_total_cost_is_sum_exact (params : JRPParams R) (sol : Solution R) :
  find_formula_policy params = Ok sol ->
  exists family_setup,
    cb_family_setup (sol_cost_breakdown sol) = Some family_setup
    /\ sol_total_cost sol
       = family_setup + cb_item_setup (sol_cost_breakdown sol)
         + cb_holding (sol_cost_breakdown sol).
Proof.
  intros Hsol.
  destruct (find_formula_policy_inv _ _ Hsol)
    as (ordered & m_list & T_star & item_results & cb & total
        & _ & _ & _ & _ & Hcb & Htot & _ & ->).
  simpl. destruct (total_cost_adds_up _ _ _ _ _ _ Hcb) as (total' & fam & Ht & Hf & E).
  exists fam. split; [exact Hf|]. congruence.
Qed.

End ExactCost.

(** ** Order independence of the joint policy *)

Section OrderIndependence.
Context {F : Type} `{PyFloatLaws F}.

(** *** The sort on keys no two of which are equal *)

Section SortUnique.
Context {A : Type} (key : A -> F).

Let below (x y : A) : Prop := fltb (key x) (key y) = true.

Lemma insert_by_key_sorted (x : A) (l : list A) :
  StronglySorted below l ->
  (forall y, y ∈ l -> below x y \/ below y x) ->
  StronglySorted below (insert_by_key key x l).
Proof.
  induction 1 as [|y l Hl IH Hy]; intros Hcmp; simpl.
  - repeat constructor.
  - destruct (fltb (key y) (key x)) eqn:Eyx.
    + constructor.
      * apply IH. intros z Hz. apply Hcmp. now right.
      * rewrite insert_by_key_perm. constructor; assumption.
    + assert (below x y) as Hxy.
      { destruct (Hcmp y) as [?|Hyx]; [left|assumption|].
        unfold below in Hyx. congruence. }
      constructor; [now constructor|].
      constructor; [exact Hxy|].
      eapply Forall_impl; [exact Hy|]. intros z Hyz.
      unfold below in *. eapply fltb_trans; eassumption.
Qed.

Lemma sort_by_key_sorted (l : list A) :
  NoDup l ->
  (forall x y, x ∈ l -> y ∈ l -> x <> y -> below x y \/ below y x) ->
  StronglySorted below (sort_by_key key l).
Proof.
  induction 1 as [|x l Hx Hnd IH]; intros Hcmp; simpl; [constructor|].
  apply insert_by_key_sorted.
  - apply IH. intros y z Hy Hz. apply Hcmp; now right.
  - intros y Hy. rewrite sort_by_key_perm in Hy.
    apply Hcmp; [left | now right |]. intros ->. contradiction.
Qed.

Lemma sort_by_key_unique (l l' : list A) :
  NoDup l ->
  (forall x y, x ∈ l -> y ∈ l -> x <> y -> below x y \/ below y x) ->
  l ≡ₚ l' ->
  sort_by_key key l' = sort_by_key key l.
Proof.
  intros Hnd Hcmp Hperm.
  apply (StronglySorted_unique_strong below).
  - intros x y _ _ Hxy Hyx. unfold below in *.
    apply fltb_asym in Hxy. congruence.
  - apply sort_by_key_sorted; [now rewrite <- Hperm|].
    intros x y Hx Hy. rewrite <- Hperm in Hx, Hy. now apply Hcmp.
  - now apply sort_by_key_sorted.
  - now rewrite !sort_by_key_perm.
Qed.

(** An element strictly below all others comes out first. *)
Lemma sort_by_key_head (l : list A) (x : A) :
  NoDup l -> x ∈ l ->
  (forall y, y ∈ l -> y <> x -> below x y) ->
  exists l', sort_by_key key l = x :: l'.
Proof.
  induction 1 as [|z l Hz Hnd IH]; intros Hin Hleast; [inversion Hin|].
  simpl. apply elem_of_cons in Hin as [->|Hin].
  - destruct (sort_by_key key l) as [|y s] eqn:Es; simpl; [eauto|].
    assert (y ∈ l) as Hy by (rewrite <- (sort_by_key_perm key l), Es; left).
    assert (below z y) as Hzy.
    { apply Hleast; [now right|]. intros ->. contradiction. }
    unfold below in Hzy. rewrite (fltb_asym _ _ Hzy). eauto.
  - destruct IH as [l' ->]; [assumption| |].
    { intros y Hy. apply Hleast. now right. }
    assert (below x z) as Hxz.
    { apply Hleast; [left|]. intros ->. contradiction. }
    simpl. unfold below in Hxz. rewrite Hxz. eauto.
Qed.

End SortUnique.

(** *** The ranking of a permuted item list *)

Lemma keyed_snd (items : list (Item F)) : map snd (map keyed items) = items.
Proof. induction items as [|it items IH]; simpl; [|rewrite IH]; reflexivity. Qed.

Lemma ratios_keyed (items : list (Item F)) (ratios : list (F * Item F)) :
  Forall2 (fun it p => ratio it = Ok (fst p) /\ snd p = it) items ratios ->
  ratios = map keyed items.
Proof.
  induction 1 as [|it [q it'] items ratios [Hq Hit] _ IH]; simpl; [reflexivity|].
  simpl in Hq, Hit. subst it'. rewrite IH. f_equal.
  unfold keyed. now rewrite Hq.
Qed.

Lemma rank_items_keyed (items : list (Item F)) :
  (forall it, it ∈ items -> exists q, ratio it = Ok q) ->
  rank_items items = Ok (map snd (sort_by_key fst (map keyed items))).
Proof.
  intros Hall. unfold rank_items.
  assert (mapM (fun it => q ← ratio it; mret (q, it)) items = Ok (map keyed items))
    as ->; [|reflexivity].
  induction items as [|it items IH]; [reflexivity|]. simpl.
  destruct (Hall it) as [q Hq]; [left|].
  rewrite IH by (intros it' Hit'; apply Hall; now right).
  assert (keyed it = (q, it)) as -> by (unfold keyed; now rewrite Hq).
  rewrite Hq. reflexivity.
Qed.

Lemma rank_items_permuted (items items' ordered : list (Item F)) :
  NoDup items ->
  (forall it1 it2 q1 q2,
     it1 ∈ items -> it2 ∈ items -> it1 <> it2 ->
     ratio it1 = Ok q1 -> ratio it2 = Ok q2 ->
     fltb q1 q2 = true \/ fltb q2 q1 = true) ->
  items ≡ₚ items' ->
  rank_items items = Ok ordered -> rank_items items' = Ok ordered.
Proof.
  intros Hnd Hcmp Hperm Hrank.
  destruct (rank_items_inv _ _ Hrank) as (ratios & Hr & ->).
  assert (forall it, it ∈ items -> exists q, ratio it = Ok q) as Hall.
  { intros it [i Hi]%list_elem_of_lookup.
    destruct (Forall2_lookup_l _ _ _ _ _ Hr Hi) as (p & _ & Hq & _). eauto. }
  rewrite rank_items_keyed by (intros it Hit; apply Hall; now rewrite Hperm).
  rewrite (ratios_keyed _ _ Hr). do 2 f_equal.
  apply sort_by_key_unique.
  - apply (NoDup_fmap_1 snd). now rewrite keyed_snd.
  - intros x y [it1 [-> H1]]%list_elem_of_fmap [it2 [-> H2]]%list_elem_of_fmap Hne.
    destruct (Hall it1 H1) as [q1 Hq1], (Hall it2 H2) as [q2 Hq2].
    unfold keyed; simpl. rewrite Hq1, Hq2.
    apply (Hcmp it1 it2); try assumption. congruence.
  - now apply fmap_Permutation.
Qed.

(** An item whose ratio is strictly below every other ratio is ranked
    first: it is the base item. *)
Lemma rank_items_head (items ordered : list (Item F)) (it : Item F) (q : F) :
  NoDup items ->
  rank_items items = Ok ordered ->
  it ∈ items -> ratio it = Ok q ->
  (forall it' q', it' ∈ items -> it' <> it -> ratio it' = Ok q' ->
                  fltb q q' = true) ->
  exists rest, ordered = it :: rest.
Proof.
  intros Hnd Hrank Hin Hq Hleast.
  destruct (rank_items_inv _ _ Hrank) as (ratios & Hr & ->).
  rewrite (ratios_keyed _ _ Hr).
  destruct (sort_by_key_head fst (map keyed items) (keyed it)) as [l' ->].
  - apply (NoDup_fmap_1 snd). now rewrite keyed_snd.
  - apply list_elem_of_fmap. eauto.
  - intros y [it' [-> Hit']]%list_elem_of_fmap Hne.
    apply list_elem_of_lookup in Hit' as [i Hi].
    destruct (Forall2_lookup_l _ _ _ _ _ Hr Hi) as ([q' ?] & _ & Hq' & _).
    simpl in Hq'. unfold keyed; simpl. rewrite Hq, Hq'.
    apply (Hleast it' q'); [eapply list_elem_of_lookup_2, Hi | congruence | exact Hq'].
  - simpl. eauto.
Qed.

(** C2. When the joint policy solve succeeds, the base item (the first of
    the ranking by ascending ratio) is assigned the multiplier 1, the
    solution holds one multiplier per item, and every one of them is an
    integer of at least 1. With distinct item ids, the multiplier the
    solution reports for the base item is that 1, and an item whose ratio
    [a/(D*v)] is below that of every other item is the base item. *)
Theorem joint_multipliers_base_one (params : JRPParams F) (sol : Solution F) :
  find_formula_policy params = Ok sol ->
  exists base rest ms,
    rank_items (params_items params) = Ok (base :: rest)
    /\ multipliers (params_A params) (base :: rest) = Ok (1%Z :: ms)
    /\ length (sol_m sol) = length (params_items params)
    /\ Forall (fun m => (1 <= m)%Z) (sol_m sol)
    /\ (unique_ids params ->
        (forall i, params_items params !! i = Some base ->
                   sol_m sol !! i = Some 1%Z)
        /\ (forall it q,
              it ∈ params_items params -> ratio it = Ok q ->
              (forall it' q', it' ∈ params_items params -> it' <> it ->
                              ratio it' = Ok q' -> fltb q q' = true) ->
              it = base)).
Proof.
  intros Hsol.
  destruct (find_formula_policy_multipliers _ _ Hsol)
    as (ordered & m_list & Hrank & Hm & Hlen & Hfrom).
  destruct (multipliers_inv _ _ _ Hm) as (base & rest & ms & -> & -> & Hms).
  exists base, rest, ms.
  split; [exact Hrank|]. split; [exact Hm|]. split; [exact Hlen|]. split.
  { apply Forall_lookup. intros i m Hi.
    pose proof (multipliers_ge_1 _ _ _ Hm) as Hge.
    rewrite Forall_forall in Hge. eapply Hge, Hfrom, Hi. }
  intros Huniq. split.
  - intros i Hi.
    destruct (find_formula_policy_reproject _ _ Hsol Huniq)
      as (ordered & m_list & T_star & Hrank' & Hm' & _ & Hproj).
    assert (ordered = base :: rest) as -> by congruence.
    assert (m_list = 1%Z :: ms) as -> by congruence.
    destruct (Hproj i base Hi) as (j & m & res & Hj & Hmj & _ & _ & ->).
    assert (j = 0%nat) as ->; [|simpl in Hmj; congruence].
    eapply NoDup_lookup; [|exact Hj|reflexivity].
    rewrite (rank_items_perm _ _ Hrank). eapply NoDup_fmap_1, Huniq.
  - intros it q Hin Hq Hleast.
    destruct (rank_items_head _ _ it q (NoDup_fmap_1 _ _ Huniq) Hrank Hin Hq Hleast)
      as [rest' [= <- _]]. reflexivity.
Qed.

(** A list of dictionary reads succeeds when every key is present. *)
Lemma mapM_dict_get {A B : Type} (f : A -> option B) (l : list A) :
  (forall x, x ∈ l -> is_Some (f x)) ->
  exists ys, mapM (fun x => dict_get (f x)) l = Ok ys
             /\ Forall2 (fun x y => f x = Some y) l ys.
Proof.
  induction l as [|x l IH]; intros Hall.
  - exists []. split; [reflexivity | constructor].
  - destruct (Hall x) as [y Hy]; [left|].
    destruct IH as (ys & Hys & Hall'); [intros z Hz; apply Hall; now right|].
    exists (y :: ys). simpl. rewrite Hy. simpl. rewrite Hys. simpl.
    split; [reflexivity | now constructor].
Qed.

(** C4, amended. For parameters in which no two items share a ratio,
    solving a permutation of the item list succeeds when solving the
    original does, with the same cycle time, total cost and cost
    breakdown, and an item gets the same metrics and the same multiplier
    at its new position as at its old one. *)
Theorem joint_order_independent (params : JRPParams F) (items' : list (Item F))
    (sol : Solution F) :
  params_items params ≡ₚ items' ->
  distinct_ratios params ->
  find_formula_policy params = Ok sol ->
  exists sol',
    find_formula_policy (mkParams (params_A params) (params_r params) items') = Ok sol'
    /\ sol_T_star sol' = sol_T_star sol
    /\ sol_total_cost sol' = sol_total_cost sol
    /\ sol_cost_breakdown sol' = sol_cost_breakdown sol
    /\ forall i j it,
         params_items params !! i = Some it -> items' !! j = Some it ->
         sol_item_results sol' !! j = sol_item_results sol !! i
         /\ sol_m sol' !! j = sol_m sol !! i.
Proof.
  intros Hperm Hdist Hsol.
  destruct (find_formula_policy_inv _ _ Hsol)
    as (ordered & m_list & T_star & item_results & cb & total
        & Hrank & Hm & HT & Hres & Hcb & Htot & Hord & Esol).
  assert (forall it, it ∈ params_items params -> exists q, ratio it = Ok q) as Hall.
  { destruct (rank_items_inv _ _ Hrank) as (ratios & Hr & _).
    intros it [i Hi]%list_elem_of_lookup.
    destruct (Forall2_lookup_l _ _ _ _ _ Hr Hi) as (p & _ & Hq & _). eauto. }
  assert (NoDup (params_items params)) as Hnd.
  { apply NoDup_alt. intros i j it Hi Hj.
    destruct (decide (i = j)) as [|Hne]; [assumption|].
    destruct (Hall it) as [q Hq]; [eapply list_elem_of_lookup_2, Hi|].
    destruct (Hdist i j it it q q Hne Hi Hj Hq Hq) as [E|E];
      pose proof (fltb_asym _ _ E); congruence. }
  assert (rank_items items' = Ok ordered) as Hrank'.
  { eapply rank_items_permuted; eauto.
    intros it1 it2 q1 q2 [i Hi]%list_elem_of_lookup [j Hj]%list_elem_of_lookup Hne.
    apply (Hdist i j); try assumption. intros ->. congruence. }
  destruct (mapM_dict_get (fun it => index_by_id item_results !! it_id it) items')
    as (results' & Hget & Hord').
  { intros it Hit. rewrite <- Hperm in Hit.
    apply list_elem_of_lookup in Hit as [i Hi].
    destruct (Forall2_lookup_l _ _ _ _ _ Hord Hi) as (res & _ & ->). eauto. }
  exists (mkSol (Some T_star) (map res_m results') results' total cb "formula").
  split.
  { unfold find_formula_policy; simpl.
    rewrite Hrank'; simpl. rewrite Hm; simpl. rewrite HT; simpl.
    rewrite Hres; simpl. rewrite Hcb; simpl. rewrite Hget; simpl.
    rewrite Htot; reflexivity. }
  rewrite Esol; simpl. split; [reflexivity|]. split; [reflexivity|].
  split; [reflexivity|].
  intros i j it Hi Hj.
  destruct (Forall2_lookup_l _ _ _ _ _ Hord Hi) as (res & Hri & Hr).
  destruct (Forall2_lookup_l _ _ _ _ _ Hord' Hj) as (res' & Hrj & Hr').
  assert (res' = res) as -> by congruence.
  rewrite !list_lookup_fmap, Hri, Hrj. split; reflexivity.
Qed.

End OrderIndependence.


(** ** The binary64 model satisfies the shared laws *)

Module Binary64Facts.
Import Binary64.

Lemma SFcompare_antisym (x y : spec_float) :
  SFcompare x y = Some Lt -> SFcompare y x = Some Gt.
Proof.
  destruct x as [sx|sx| |sx mx ex], y as [sy|sy| |sy my ey]; simpl;
    try destruct sx; try destruct sy; simpl; try congruence.
  - intros E. f_equal. rewrite (Z.compare_antisym ex ey).
    destruct (ex ?= ey)%Z eqn:Ee; simpl in *; try congruence.
    injection E as E. 
    change (Pos.compare_cont Eq ?a ?b) with (Pos.compare a b) in *.
    rewrite (Pos.compare_antisym mx my).
    destruct (mx ?= my)%positive; simpl in *; congruence.
  - intros E. f_equal. rewrite (Z.compare_antisym ex ey).
    destruct (ex ?= ey)%Z eqn:Ee; simpl in *; try congruence.
    injection E as E. 
    change (Pos.compare_cont Eq ?a ?b) with (Pos.compare a b) in *.
    rewrite (Pos.compare_antisym mx my).
    destruct (mx ?= my)%positive; simpl in *; congruence.
Qed.

Lemma SFcompare_trans (x y z : spec_float) :
  SFcompare x y = Some Lt -> SFcompare y z = Some Lt -> SFcompare x z = Some Lt.
Proof.
  destruct x as [sx|sx| |sx mx ex], y as [sy|sy| |sy my ey], z as [sz|sz| |sz mz ez];
    simpl;
    try destruct sx; try destruct sy; try destruct sz; simpl; try congruence;
    change (Pos.compare_cont Eq ?a ?b) with (Pos.compare a b) in *;
    intros E1 E2; f_equal;
    destruct (Z.compare_spec ex ey), (Z.compare_spec ey ez), (Z.compare_spec ex ez);
    try congruence; try lia; subst;
    injection E1 as E1; injection E2 as E2;
    destruct (Pos.compare_spec mx my), (Pos.compare_spec my mz), (Pos.compare_spec mx mz);
    simpl in *; try congruence; try lia.
Qed.

Lemma SFltb_zero (x : spec_float) :
  SFltb x (S754_zero false) = negb (sf_nonneg x).
Proof. destruct x as [s|s| |s m e]; try destruct s; reflexivity. Qed.

Lemma binary_round_aux_nonneg (mx ex : Z) (lx : location) :
  sf_nonneg (binary_round_aux prec emax false mx ex lx) = true.
Proof.
  unfold binary_round_aux.
  destruct (shr_fexp prec emax mx ex lx) as [mrs e'].
  destruct (shr_fexp prec emax _ e' loc_Exact) as [mrs' e''].
  destruct (shr_m mrs'); [reflexivity | | reflexivity].
  destruct (e'' <=? emax - prec); reflexivity.
Qed.

Lemma SFmul_nonneg (x y : spec_float) :
  sf_nonneg x = true -> sf_nonneg y = true -> sf_nonneg (SF64mul x y) = true.
Proof.
  destruct x as [sx|sx| |sx mx ex], y as [sy|sy| |sy my ey];
    try destruct sx; try destruct sy; simpl; try congruence; intros _ _;
    apply binary_round_aux_nonneg.
Qed.

Lemma SFdiv_nonneg (x y : spec_float) :
  sf_nonneg x = true -> sf_nonneg y = true -> SFeqb y (S754_zero false) = false ->
  sf_nonneg (SF64div x y) = true.
Proof.
  destruct x as [sx|sx| |sx mx ex], y as [sy|sy| |sy my ey];
    try destruct sx; try destruct sy; cbv [SFeqb SFcompare sf_nonneg]; simpl;
    try congruence; intros _ _ _.
  unfold SF64div, SFdiv.
  destruct (SFdiv_core_binary prec emax (Z.pos mx) ex (Z.pos my) ey) as [[mz ez] lz].
  apply binary_round_aux_nonneg.
Qed.

Lemma SFadd_nonneg (x y : spec_float) :
  sf_nonneg x = true -> sf_nonneg y = true -> sf_nonneg (SF64add x y) = true.
Proof.
  destruct x as [sx|sx| |sx mx ex], y as [sy|sy| |sy my ey];
    try destruct sx; try destruct sy; simpl; try congruence; intros _ _.
  unfold SF64add, SFadd. simpl. unfold binary_round.
  destruct (shl_align _ _ _). apply binary_round_aux_nonneg.
Qed.

Lemma SFeqb_zero_mul (x y : spec_float) :
  SFeqb x (S754_zero false) = true -> SFeqb y (S754_zero false) = true ->
  SFeqb (SF64mul x y) (S754_zero false) = true.
Proof.
  destruct x as [sx|sx| |sx mx ex], y as [sy|sy| |sy my ey];
    try destruct sx; try destruct sy; cbv [SFeqb SFcompare]; simpl; congruence.
Qed.

Lemma nonneg_sf (x : float) : nonneg x = sf_nonneg (Prim2SF x).
Proof.
  unfold nonneg; simpl. rewrite ltb_spec.
  change (Prim2SF (int_to_float 0)) with (S754_zero false).
  rewrite SFltb_zero. apply negb_involutive.
Qed.

Lemma feqb_zero_sf (x : float) :
  feqb x (of_int 0) = SFeqb (Prim2SF x) (S754_zero false).
Proof. simpl. now rewrite FloatAxioms.eqb_spec. Qed.

#[global] Instance binary64_laws : PyFloatLaws float.
Proof.
  split.
  - intros x y. rewrite !feqb_zero_sf. simpl. rewrite mul_spec.
    apply SFeqb_zero_mul.
  - intros x y. simpl. rewrite !ltb_spec. unfold SFltb.
    destruct (SFcompare (Prim2SF x) (Prim2SF y)) as [[]|] eqn:E; try discriminate.
    intros _. now rewrite (SFcompare_antisym _ _ E).
  - intros x y z. simpl. rewrite !ltb_spec. unfold SFltb.
    destruct (SFcompare (Prim2SF x) (Prim2SF y)) as [[]|] eqn:E1; try discriminate.
    destruct (SFcompare (Prim2SF y) (Prim2SF z)) as [[]|] eqn:E2; try discriminate.
    intros _ _. now rewrite (SFcompare_trans _ _ _ E1 E2).
  - intros x y. simpl. rewrite FloatAxioms.eqb_spec, ltb_spec. unfold SFeqb, SFltb.
    now destruct (SFcompare (Prim2SF x) (Prim2SF y)) as [[]|].
  - reflexivity.
  - intros x y. rewrite !nonneg_sf. simpl. rewrite add_spec. apply SFadd_nonneg.
  - intros x y. rewrite !nonneg_sf. simpl. rewrite mul_spec. apply SFmul_nonneg.
  - intros x y. rewrite !nonneg_sf, feqb_zero_sf. simpl. rewrite div_spec.
    apply SFdiv_nonneg.
Qed.

(** *** Ties of [round] *)

Lemma round_half_even_dyadic_tie (s : bool) (m : positive) (e k : Z) :
  e < 0 ->
  2 * cond_Zopp s (Zpos m) = (2 * k + 1) * 2 ^ (- e) ->
  cond_Zopp s (round_half_even_dyadic (Zpos m) e)
  = if Z.even k then k else k + 1.
Proof.
  intros He Hv. unfold round_half_even_dyadic.
  rewrite (proj2 (Z.leb_gt 0 e)) by lia.
  set (h := 2 ^ (- e - 1)).
  assert (0 < h) as Hh by (apply Z.pow_pos_nonneg; lia).
  assert (2 ^ (- e) = 2 * h) as Hd.
  { unfold h. rewrite <- Z.pow_succ_r by lia. f_equal. lia. }
  rewrite Hd in *.
  assert (0 <= h < 2 * h) as Hrange by lia.
  destruct s; simpl in Hv.
  - assert (Zpos m = 2 * h * (- k - 1) + h) as Hm by nia.
    rewrite <- (Z.div_unique _ _ _ h (or_introl Hrange) Hm).
    rewrite <- (Z.mod_unique _ _ _ h (or_introl Hrange) Hm).
    rewrite Z.compare_refl.
    replace (- k - 1) with (- (k + 1)) by lia.
    rewrite Z.even_opp, Z.even_add. simpl.
    destruct (Z.even k); simpl; lia.
  - assert (Zpos m = 2 * h * k + h) as Hm by nia.
    rewrite <- (Z.div_unique _ _ _ h (or_introl Hrange) Hm).
    rewrite <- (Z.mod_unique _ _ _ h (or_introl Hrange) Hm).
    rewrite Z.compare_refl. reflexivity.
Qed.

Lemma binary64_round_halfway (x : float) (k : Z) :
  halfway x k -> round x = Ok (if Z.even k then k else k + 1).
Proof.
  intros (s & m & e & Hx & He & Hv). unfold round. rewrite Hx. f_equal.
  now apply round_half_even_dyadic_tie.
Qed.

#[global] Instance binary64_round_ties : RoundTies float :=
  {| is_halfway := halfway; fround_halfway := binary64_round_halfway |}.

End Binary64Facts.

(** ** The exact model satisfies the shared laws *)

Module ExactLaws.
Import Exact ExactFacts.

Local Open Scope R_scope.

#[global] Instance exact_laws : PyFloatLaws R.
Proof.
  split.
  - intros x y. simpl. rewrite !Reqb_true. intros -> ->. ring.
  - intros x y. simpl. rewrite Rltb_true, Rltb_false. lra.
  - intros x y z. simpl. rewrite !Rltb_true. lra.
  - intros x y. simpl. rewrite Reqb_true, Rltb_false. lra.
  - apply nonneg_true. simpl. lra.
  - intros x y. rewrite !nonneg_true. simpl. lra.
  - intros x y. rewrite !nonneg_true. simpl. nra.
  - intros x y. rewrite !nonneg_true. simpl. rewrite Reqb_false. intros Hx Hy Hne.
    apply Rmult_le_pos; [assumption|]. left. apply Rinv_0_lt_compat. lra.
Qed.

Lemma exact_round_halfway (x : R) (k : Z) :
  halfway x k -> fround x = Ok (if Z.even k then k else (k + 1)%Z).
Proof. intros ->. simpl. now rewrite round_half_even_tie. Qed.

#[global] Instance exact_round_ties : RoundTies R :=
  {| is_halfway := halfway; fround_halfway := exact_round_halfway |}.

End ExactLaws.

(** ** Degenerate input *)

Section Degenerate.
Context {F : Type} `{PyFloatLaws F}.

Local Open Scope py_scope.

Lemma py_div_raises {x y : F} {e : py_error} :
  x / y = Raise e -> e = ZeroDivisionError.
Proof. unfold py_div. destruct (feqb y (of_int 0)); congruence. Qed.

Lemma ratio_raises (it : Item F) (e : py_error) :
  ratio it = Raise e -> e = ZeroDivisionError.
Proof. apply py_div_raises. Qed.

Lemma ratio_zero_usage (it : Item F) :
  feqb (it_D it) (of_int 0) = true -> feqb (it_v it) (of_int 0) = true ->
  ratio it = Raise ZeroDivisionError.
Proof.
  intros HD Hv. unfold ratio, py_div.
  now rewrite (feqb_zero_mul _ _ HD Hv).
Qed.

(** C5. When some item has [D = 0] and [v = 0], the joint policy solve
    raises [ZeroDivisionError], an invalid-parameters error: no solution
    is returned and no ratio is formed from the zero product. *)
Theorem joint_zero_demand_and_value_raises (params : JRPParams F) (it : Item F) :
  it ∈ params_items params ->
  feqb (it_D it) (of_int 0) = true ->
  feqb (it_v it) (of_int 0) = true ->
  find_formula_policy params = Raise ZeroDivisionError
  /\ InvalidParameters ZeroDivisionError.
Proof.
  intros Hin HD Hv. split; [|now left].
  unfold find_formula_policy, rank_items.
  rewrite (mapM_Raise _ _ it ZeroDivisionError); [reflexivity| |assumption|].
  - intros it' e E. destruct (ratio it') as [q|e'] eqn:Eq; simpl in E; [discriminate|].
    injection E as <-. eapply ratio_raises, Eq.
  - now rewrite ratio_zero_usage.
Qed.

End Degenerate.

(** ** The independent baseline on a zero carrying value *)

Section Independent.
Context {F : Type} `{PyFloatLaws F}.

Local Open Scope py_scope.

Lemma math_sqrt_nonneg (x : F) : nonneg x = true -> math_sqrt x = Ok (fsqrt x).
Proof.
  unfold nonneg, math_sqrt. rewrite negb_true_iff. now intros ->.
Qed.

(** On validated input the only exception of one EOQ computation is the
    division by zero. *)
Lemma eoq_item_raises (A r : F) (it : Item F) (e : py_error) :
  nonneg A = true -> nonneg r = true -> valid_item it = true ->
  eoq_item A r it = Raise e -> e = ZeroDivisionError.
Proof.
  unfold valid_item. rewrite !andb_true_iff. intros HA Hr [[Ha HD] Hv].
  unfold eoq_item.
  destruct (of_int 2 * (A + it_a it) * it_D it / (r * it_v it)) as [q|e1] eqn:Eq;
    simpl; [|intros [= <-]; eapply py_div_raises, Eq].
  assert (nonneg q = true) as Hq.
  { unfold py_div in Eq. destruct (feqb (r * it_v it) (of_int 0)) eqn:Ez; [discriminate|].
    injection Eq as <-. apply nonneg_div; [| |assumption].
    - repeat apply nonneg_mul; try assumption; [apply nonneg_two|].
      now apply nonneg_add.
    - now apply nonneg_mul. }
  rewrite (math_sqrt_nonneg _ Hq). simpl.
  destruct (fsqrt q / it_D it) as [c|e2] eqn:Ec;
    simpl; [|intros [= <-]; eapply py_div_raises, Ec].
  destruct (it_D it / fsqrt q) as [u|e3] eqn:Eu;
    simpl; [discriminate|intros [= <-]; eapply py_div_raises, Eu].
Qed.

Lemma eoq_item_zero_value (A r : F) (it : Item F) :
  feqb (r * it_v it) (of_int 0) = true ->
  eoq_item A r it = Raise ZeroDivisionError.
Proof. intros Hz. unfold eoq_item, py_div. now rewrite Hz. Qed.

Lemma eoq_loop_raises (A r : F) (items : list (Item F)) (it : Item F) :
  nonneg A = true -> nonneg r = true ->
  forallb valid_item items = true ->
  it ∈ items -> feqb (r * it_v it) (of_int 0) = true ->
  forall total_cost total_setup total_holding item_results,
    eoq_loop A r items total_cost total_setup total_holding item_results
    = Raise ZeroDivisionError.
Proof.
  intros HA Hr Hvalid Hin Hz.
  induction items as [|it0 items IH]; [inversion Hin|].
  simpl in Hvalid. apply andb_true_iff in Hvalid as [Hv0 Hvalid].
  intros tc ts th results. simpl.
  destruct (eoq_item A r it0) as [res|e] eqn:E0; simpl.
  - apply elem_of_cons in Hin as [->|Hin].
    + rewrite (eoq_item_zero_value _ _ _ Hz) in E0. discriminate.
    + now apply IH.
  - now rewrite (eoq_item_raises _ _ _ _ HA Hr Hv0 E0).
Qed.

(** Whatever the input, one EOQ computation raises nothing but the
    division by zero and the domain error of [math.sqrt]. *)
Lemma eoq_item_raises_any (A r : F) (it : Item F) (e : py_error) :
  eoq_item A r it = Raise e ->
  e = ZeroDivisionError \/ e = ValueError msg_math_domain.
Proof.
  unfold eoq_item.
  destruct (of_int 2 * (A + it_a it) * it_D it / (r * it_v it)) as [q|e1] eqn:Eq;
    simpl; [|intros [= <-]; left; eapply py_div_raises, Eq].
  unfold math_sqrt. destruct (fltb q (of_int 0)); simpl; [intros [= <-]; now right|].
  destruct (fsqrt q / it_D it) as [c|e2] eqn:Ec;
    simpl; [|intros [= <-]; left; eapply py_div_raises, Ec].
  destruct (it_D it / fsqrt q) as [u|e3] eqn:Eu;
    simpl; [discriminate|intros [= <-]; left; eapply py_div_raises, Eu].
Qed.

Lemma eoq_loop_raises_any (A r : F) (items : list (Item F)) (it : Item F) :
  it ∈ items -> feqb (r * it_v it) (of_int 0) = true ->
  forall total_cost total_setup total_holding item_results,
  exists e,
    eoq_loop A r items total_cost total_setup total_holding item_results = Raise e
    /\ (e = ZeroDivisionError \/ e = ValueError msg_math_domain).
Proof.
  intros Hin Hz.
  induction items as [|it0 items IH]; [inversion Hin|].
  intros tc ts th results. simpl.
  destruct (eoq_item A r it0) as [res|e] eqn:E0; simpl.
  - apply elem_of_cons in Hin as [->|Hin].
    + rewrite (eoq_item_zero_value _ _ _ Hz) in E0. discriminate.
    + now apply IH.
  - exists e. split; [reflexivity|]. eapply eoq_item_raises_any, E0.
Qed.

(** C8. When some item has [r * v = 0], the independent baseline solve
    raises instead of returning a solution; on validated parameters the
    exception is [ZeroDivisionError], an invalid-parameters error, and on
    any input it is that or the domain error of [math.sqrt]. *)
Theorem independent_zero_carrying_value_raises (params : JRPParams F) (it : Item F) :
  it ∈ params_items params ->
  feqb (params_r params * it_v it) (of_int 0) = true ->
  exists e,
    find_independent_policy params = Raise e
    /\ (e = ZeroDivisionError \/ e = ValueError msg_math_domain)
    /\ (validate_instance params = true ->
        e = ZeroDivisionError /\ InvalidParameters e).
Proof.
  intros Hin Hz.
  destruct (eoq_loop_raises_any (params_A params) (params_r params) _ it Hin Hz
              (of_int 0) (of_int 0) (of_int 0) []) as (e & Hloop & He).
  exists e. split; [|split; [exact He|]].
  - unfold find_independent_policy. now rewrite Hloop.
  - unfold validate_instance. rewrite !andb_true_iff.
    intros [[[HA Hr] _] Hvalid].
    rewrite (eoq_loop_raises _ _ _ it HA Hr Hvalid Hin Hz) in Hloop.
    injection Hloop as <-. split; [reflexivity | now left].
Qed.

End Independent.

(** ** Sweeps against direct solves *)

Section SweepTheorems.
Context {F : Type} `{PyFloat F}.

(** C6. A sweep over the major setup cost, the carrying charge or one of
    the three attributes of a named item, on [N] samples each of which
    solves, hands the solver the base parameters with that one field set to
    each sample in turn, and returns the samples themselves together with
    [N] costs, the cost at each index being the total cost of the direct
    solve at that sample. *)
Theorem sweep_matches_direct_solves (params : JRPParams F) (target : SweepTarget)
    (samples : list F) :
  match target with OverItem _ key => key ∈ valid_keys | _ => True end ->
  (forall s, s ∈ samples ->
     exists sol, find_formula_policy (substitute target s params) = Ok sol) ->
  exists costs,
    sweep params target samples
    = (map (fun s => substitute target s params) samples, Ok (samples, costs))
    /\ length costs = length samples
    /\ forall i s, samples !! i = Some s ->
         exists sol,
           find_formula_policy (substitute target s params) = Ok sol
           /\ costs !! i = Some (sol_total_cost sol).
Proof.
  intros Hkey Hall.
  destruct (sweep_calls_substitute params target samples Hkey) as (local & Hlocal & ->).
  destruct (sweep_loop_solved local samples) with (x_vals := @nil F)
    (y_vals := @nil F) (calls := @nil (JRPParams F)) as (costs & Hrun & Hcosts).
  { intros s Hs. rewrite Hlocal. now apply Hall. }
  exists costs. simpl in Hrun. split; [|split].
  - rewrite Hrun. f_equal. apply list_fmap_ext. intros ? s _. apply Hlocal.
  - symmetry. eapply Forall2_length, Hcosts.
  - intros i s Hi.
    destruct (Forall2_lookup_l _ _ _ _ _ Hcosts Hi) as (c & Hc & sol & Hsol & ->).
    exists sol. rewrite <- Hlocal. now split.
Qed.

(** C7. An item sweep under a key other than ["a"], ["D"] and ["v"]
    raises the [ValueError] that names the three keys, an invalid-target
    error, and has not called the solver on any sample. *)
Theorem sweep_item_bad_key_fails_fast (params : JRPParams F)
    (item_id key : string) (values : list F) :
  key <> "a" -> key <> "D" -> key <> "v" ->
  sensitivity_curve_over_item params item_id key values
  = ([], Raise (ValueError msg_bad_key))
  /\ InvalidTarget (ValueError msg_bad_key).
Proof.
  intros Ha HD Hv. split; [|reflexivity].
  unfold sensitivity_curve_over_item.
  rewrite bool_decide_eq_false_2; [reflexivity|].
  unfold valid_keys. rewrite !elem_of_cons, elem_of_nil. tauto.
Qed.

End SweepTheorems.

(** ** The comparison helper *)

Section Comparison.
Context {F : Type} `{PyFloatLaws F}.

(** C9. The comparison of two solutions holds the difference of the cycle
    times, where an absent one (and a zero one) counts as 0, the
    difference of the total costs, the difference of the item counts, and
    the label of the solution with the lower total cost; on equal costs
    the label is the one of the second solution. *)
Theorem compare_policies_diffs_and_label (sol1 sol2 : Solution F) :
  let c := compare_policies sol1 sol2 in
  cmp_T_star_diff c = fsub (or_zero (sol_T_star sol1)) (or_zero (sol_T_star sol2))
  /\ or_zero None = of_int 0
  /\ (forall t : F, feqb t (of_int 0) = false -> or_zero (Some t) = t)
  /\ (forall t : F, feqb t (of_int 0) = true -> or_zero (Some t) = of_int 0)
  /\ cmp_cost_diff c = fsub (sol_total_cost sol1) (sol_total_cost sol2)
  /\ cmp_items_count_diff c
     = (Z.of_nat (length (sol_item_results sol1))
        - Z.of_nat (length (sol_item_results sol2)))%Z
  /\ (fltb (sol_total_cost sol1) (sol_total_cost sol2) = true ->
      cmp_better c = "Instance 1")
  /\ (fltb (sol_total_cost sol2) (sol_total_cost sol1) = true ->
      cmp_better c = "Instance 2")
  /\ (feqb (sol_total_cost sol1) (sol_total_cost sol2) = true ->
      cmp_better c = "Instance 2").
Proof.
  simpl. repeat split.
  - intros t Ht. simpl. now rewrite Ht.
  - intros t Ht. simpl. now rewrite Ht.
  - now intros ->.
  - intros Hlt. now rewrite (fltb_asym _ _ Hlt).
  - intros Heq. now rewrite (fltb_feqb _ _ Heq).
Qed.

End Comparison.

(** ** Rounding of the multiplier candidate *)

Section Rounding.
Context {F : Type} `{PyFloat F} `{!RoundTies F}.

(** C10. In a solved instance, an item other than the base item whose
    candidate lies exactly halfway between the integers [k] and [k + 1]
    is assigned the even one of the two, raised to 1 when that is below 1;
    with distinct item ids this is the multiplier the solution reports
    for the item. *)
Theorem joint_candidate_tie_rounds_to_even (params : JRPParams F) (sol : Solution F)
    (base : Item F) (rest : list (Item F)) (j : nat) (it : Item F) (x : F) (k : Z) :
  find_formula_policy params = Ok sol ->
  rank_items (params_items params) = Ok (base :: rest) ->
  rest !! j = Some it ->
  m_candidate (params_A params) base it = Ok x ->
  is_halfway x k ->
  exists ms,
    multipliers (params_A params) (base :: rest) = Ok (1 :: ms)
    /\ ms !! j = Some (Z.max 1 (if Z.even k then k else k + 1))
    /\ (unique_ids params ->
        forall i, params_items params !! i = Some it ->
                  sol_m sol !! i = Some (Z.max 1 (if Z.even k then k else k + 1))).
Proof.
  intros Hsol Hrank Hj Hcand Hhalf.
  destruct (find_formula_policy_multipliers _ _ Hsol)
    as (ordered & m_list & Hrank' & Hm & _ & _).
  assert (ordered = base :: rest) as -> by congruence.
  destruct (multipliers_inv _ _ _ Hm) as (base' & rest' & ms & [= <- <-] & -> & Hms).
  destruct (Forall2_lookup_l _ _ _ _ _ Hms Hj) as (m & Hmj & Hmult).
  unfold multiplier in Hmult. rewrite Hcand in Hmult. simpl in Hmult.
  rewrite (fround_halfway _ _ Hhalf) in Hmult. simpl in Hmult.
  injection Hmult as <-.
  exists ms. split; [exact Hm|]. split; [exact Hmj|].
  intros Huniq i Hi.
  destruct (find_formula_policy_reproject _ _ Hsol Huniq)
    as (ordered & m_list & T_star & Hrank'' & Hm' & _ & Hproj).
  assert (ordered = base :: rest) as -> by congruence.
  assert (m_list = 1 :: ms) as -> by congruence.
  destruct (Hproj i it Hi) as (j' & m' & res & Hj' & Hmj' & _ & _ & ->).
  assert (j' = S j) as ->; [|simpl in Hmj'; congruence].
  eapply NoDup_lookup; [|exact Hj'|exact Hj].
  rewrite (rank_items_perm _ _ Hrank). eapply NoDup_fmap_1, Huniq.
Qed.

End Rounding.

(** ** The halfway instance, solved in exact arithmetic *)

Module ExactExample.
Import Exact ExactFacts.

Local Open Scope R_scope.

Lemma halfway_valid : validate_instance (halfway_example (F:=R)) = true.
Proof.
  unfold validate_instance, valid_item, halfway_example.
  cbn [params_A params_r params_items forallb it_a it_D it_v].
  rewrite !(proj2 (nonneg_true _)) by (simpl; lra).
  reflexivity.
Qed.

Lemma halfway_unique_ids : unique_ids (halfway_example (F:=R)).
Proof.
  unfold unique_ids, halfway_example; simpl.
  repeat constructor; rewrite ?elem_of_cons, ?elem_of_nil; intuition discriminate.
Qed.

Lemma halfway_rank :
  rank_items (params_items (halfway_example (F:=R)))
  = Ok (params_items halfway_example).
Proof.
  unfold rank_items, halfway_example, ratio.
  exact_eval.
  unfold sort_by_key. cbn [foldr insert_by_key fst]. exact_ops.
  rewrite (proj2 (Rltb_false _ _)) by lra. reflexivity.
Qed.

Lemma halfway_candidate :
  m_candidate 0 (mkItem "base" 1 1 1) (mkItem "x" 25 4 1) = Ok (IZR 2 + 1 / 2).
Proof.
  unfold m_candidate. exact_eval.
  apply math_sqrt_square; exact_ops; lra.
Qed.

Lemma halfway_multipliers :
  multipliers 0 (params_items (halfway_example (F:=R))) = Ok [1%Z; 2%Z].
Proof.
  unfold halfway_example, multipliers, multiplier.
  cbn [params_items tail mapM mbind result_bind of_int exact].
  rewrite halfway_candidate. cbn [mbind result_bind fround exact].
  rewrite round_half_even_tie. reflexivity.
Qed.

Lemma halfway_cycle_time :
  cycle_time_T 0 3 (params_items (halfway_example (F:=R))) [1%Z; 2%Z] = Ok 1.
Proof.
  unfold halfway_example, cycle_time_T, py_sum.
  exact_eval. cbn [foldl]. exact_ops.
  rewrite (proj2 (Rleb_false _ _)) by lra.
  exact_eval.
  apply (math_sqrt_square 1); [lra | field].
Qed.

Lemma halfway_metrics :
  exists r1 r2,
    compute_item_metrics (params_items (halfway_example (F:=R))) 1 [1%Z; 2%Z] 3
    = Ok [r1; r2]
    /\ res_id r1 = "base" /\ res_m r1 = 1%Z /\ res_id r2 = "x" /\ res_m r2 = 2%Z.
Proof.
  unfold halfway_example, compute_item_metrics, item_metrics.
  exact_eval. do 2 eexists. split; [reflexivity|]. now repeat split.
Qed.

Lemma halfway_total_cost :
  exists cb total,
    total_cost 0 3 (params_items (halfway_example (F:=R))) 1 [1%Z; 2%Z] = Ok cb
    /\ cb_total cb = Some total.
Proof.
  unfold halfway_example, total_cost.
  exact_eval. do 2 eexists. split; reflexivity.
Qed.

Lemma halfway_solved :
  exists sol, find_formula_policy (halfway_example (F:=R)) = Ok sol
              /\ sol_m sol = [1%Z; 2%Z] /\ sol_T_star sol = Some 1.
Proof.
  destruct halfway_metrics as (r1 & r2 & Hres & Hid1 & Hm1 & Hid2 & Hm2).
  destruct halfway_total_cost as (cb & total & Hcb & Htot).
  exists (mkSol (Some 1) [1%Z; 2%Z] [r1; r2] total cb "formula").
  split; [|split; reflexivity].
  unfold find_formula_policy. rewrite halfway_rank.
  cbn [mbind result_bind]. change (params_A halfway_example) with 0.
  change (params_r halfway_example) with 3.
  rewrite halfway_multipliers. cbn [mbind result_bind].
  rewrite halfway_cycle_time. cbn [mbind result_bind].
  rewrite Hres. cbn [mbind result_bind].
  rewrite Hcb. cbn [mbind result_bind].
  unfold index_by_id. cbn [foldl mapM params_items halfway_example it_id].
  rewrite Hid1, Hid2.
  rewrite (lookup_insert_ne _ "x" "base") by done.
  rewrite !lookup_insert_eq.
  cbn [dict_get mbind result_bind mret result_ret map]. rewrite Htot, Hm1, Hm2.
  reflexivity.
Qed.

End ExactExample.

(** ** The theorems at concrete inputs *)

Section ExactWitnesses.
Import Exact ExactFacts ExactExample.

Local Open Scope R_scope.

(** At the halfway instance the base item, of ratio 1 against 25/4, has
    the multiplier 1. *)
Example joint_multipliers_tied_exact_example :
  exists sol : Solution R,
    find_formula_policy halfway_example = Ok sol
    /\ sol_m sol !! 0%nat = Some 1%Z.
Proof.
  destruct halfway_solved as (sol & Hsol & _).
  exists sol. split; [exact Hsol|].
  apply (joint_multipliers_tied_exact halfway_example sol
           halfway_valid halfway_unique_ids Hsol
           0%nat (mkItem "base" 1 1 1) (1 / (1 * 1))); [reflexivity| |].
  - unfold ratio. now exact_eval.
  - intros it' q'. unfold halfway_example. cbn [params_items of_int exact].
    rewrite !elem_of_cons, elem_of_nil. unfold ratio.
    intros [->|[->|[]]]; exact_eval; exact_ops; intros [= <-]; lra.
Qed.

(** At the halfway instance, solved over the reals, the total cost is the
    sum of the three entries. *)
Example joint_total_cost_is_sum_exact_example :
  exists sol : Solution R,
    find_formula_policy halfway_example = Ok sol
    /\ exists family_setup,
         cb_family_setup (sol_cost_breakdown sol) = Some family_setup
         /\ sol_total_cost sol
            = family_setup + cb_item_setup (sol_cost_breakdown sol)
              + cb_holding (sol_cost_breakdown sol).
Proof.
  destruct halfway_solved as (sol & Hsol & _).
  exists sol. split; [exact Hsol|].
  exact (joint_total_cost_is_sum_exact halfway_example sol Hsol).
Qed.

End ExactWitnesses.

(** ** The solver on Python floats *)

Section Binary64Theorems.
Import Binary64 Binary64Facts.

(** C1. On the lecture instance the ranking is 1L, 5L, 10L, all three
    multipliers are 1, the cycle time is 0.5490 to four decimals, and the
    total cost 309.64 and its parts 72.86 (family setup), 81.96 (item
    setup) and 154.82 (holding) to two decimals. *)
Theorem example_small_joint_policy :
  map it_id <$> rank_items (params_items example_small) = Ok ["1L"; "5L"; "10L"]
  /\ exists sol T_star family_setup,
       find_formula_policy example_small = Ok sol
       /\ sol_m sol = [1; 1; 1]
       /\ sol_T_star sol = Some T_star
       /\ approx T_star 0.5490%float 0.00005%float = true
       /\ approx (sol_total_cost sol) 309.64%float 0.005%float = true
       /\ cb_family_setup (sol_cost_breakdown sol) = Some family_setup
       /\ approx family_setup 72.86%float 0.005%float = true
       /\ approx (cb_item_setup (sol_cost_breakdown sol)) 81.96%float 0.005%float
          = true
       /\ approx (cb_holding (sol_cost_breakdown sol)) 154.82%float 0.005%float
          = true.
Proof.
  split; [vm_compute; reflexivity|].
  do 3 eexists. split; [vm_compute; reflexivity|].
  repeat split; vm_compute; reflexivity.
Qed.

(** On floats too, the halfway candidate 2.5 gives the multiplier 2, and
    [round] sends 3.5 to 4 and 0.5 to 0. *)
Example halfway_binary64 :
  m_candidate 0%float (mkItem "base" 1%float 1%float 1%float)
              (mkItem "x" 25%float 4%float 1%float) = Ok 2.5%float
  /\ sol_m <$> find_formula_policy (halfway_example (F:=float)) = Ok [1; 2]
  /\ round 3.5%float = Ok 4 /\ round 0.5%float = Ok 0.
Proof. repeat split; vm_compute; reflexivity. Qed.

(** On floats the total cost and the sum of its three parts, which are
    computed along different paths, agree on the lecture instance up to
    rounding. *)
Example example_small_total_is_sum :
  (fun sol =>
     match cb_family_setup (sol_cost_breakdown sol) with
     | Some family_setup =>
         approx (sol_total_cost sol)
                (family_setup + cb_item_setup (sol_cost_breakdown sol)
                 + cb_holding (sol_cost_breakdown sol))%float
                1e-12%float
     | None => false
     end) <$> find_formula_policy example_small = Ok true.
Proof. vm_compute; reflexivity. Qed.

(** On the instance with the tiny setup costs every number is finite, the
    solve returns, and the total cost exceeds the sum of its three parts by
    more than 8%: the quotient [a / m] is rounded to a multiple of
    [2^-1074] on one path and not on the other. *)
Example tiny_setups_total_is_not_sum :
  validate_instance tiny_setups_example = true
  /\ (fun sol =>
        match cb_family_setup (sol_cost_breakdown sol) with
        | Some family_setup =>
            PrimFloat.ltb
              ((family_setup + cb_item_setup (sol_cost_breakdown sol)
                + cb_holding (sol_cost_breakdown sol)) * 1.08)%float
              (sol_total_cost sol)
        | None => false
        end) <$> find_formula_policy tiny_setups_example = Ok true.
Proof. split; vm_compute; reflexivity. Qed.


(** C4, as stated, fails: swapping the two items of equal ratio changes
    the base item, and with it the multiplier of the third item, from 5
    to 8. *)
Lemma tied_ratios_order_dependence :
  ~ (forall (params : JRPParams float) (items' : list (Item float))
            (sol sol' : Solution float),
       validate_instance params = true ->
       unique_ids params ->
       params_items params ≡ₚ items' ->
       find_formula_policy params = Ok sol ->
       find_formula_policy (mkParams (params_A params) (params_r params) items')
       = Ok sol' ->
       forall i j it,
         params_items params !! i = Some it -> items' !! j = Some it ->
         sol_item_results sol' !! j = sol_item_results sol !! i).
Proof.
  intros Hclaim.
  assert (exists sol, find_formula_policy (tied_example (F:=float)) = Ok sol
                      /\ res_m <$> sol_item_results sol !! 2%nat = Some 5)
    as (sol & Hsol & Hm) by (eexists; split; vm_compute; reflexivity).
  assert (exists sol', find_formula_policy (tied_example_swapped (F:=float)) = Ok sol'
                       /\ res_m <$> sol_item_results sol' !! 2%nat = Some 8)
    as (sol' & Hsol' & Hm') by (eexists; split; vm_compute; reflexivity).
  assert (sol_item_results sol' !! 2%nat = sol_item_results sol !! 2%nat) as E.
  { apply (Hclaim tied_example tied_items_swapped sol sol')
      with (it := mkItem "Z" (of_int 100) (of_int 1) (of_int 1));
      try reflexivity; try assumption.
    - unfold unique_ids; simpl.
      repeat constructor; rewrite ?elem_of_cons, ?elem_of_nil; intuition discriminate.
    - apply perm_swap. }
  rewrite E in Hm'. congruence.
Qed.

End Binary64Theorems.

Section Binary64Witnesses.
Import Binary64 Binary64Facts.

Lemma example_small_unique_ids : unique_ids example_small.
Proof.
  unfold unique_ids; simpl.
  repeat constructor; rewrite ?elem_of_cons, ?elem_of_nil; intuition discriminate.
Qed.

Lemma example_small_distinct_ratios : distinct_ratios example_small.
Proof.
  intros i j it1 it2 q1 q2 Hne Hi Hj.
  destruct i as [|[|[|i]]], j as [|[|[|j]]];
    simpl in Hi, Hj; try discriminate; try congruence;
    injection Hi as <-; injection Hj as <-;
    vm_compute; intros [= <-] [= <-]; auto.
Qed.

(** The lecture instance with its items rotated: 10L, 1L, 5L. *)
Lemma joint_order_independent_witness :
  exists sol sol' : Solution float,
    find_formula_policy example_small = Ok sol
    /\ find_formula_policy
         (mkParams 40%float 0.24%float
            [ mkItem "10L" 15%float 200%float 3%float;
              mkItem "1L" 15%float 500%float 2%float;
              mkItem "5L" 15%float 300%float 2.5%float ]) = Ok sol'
    /\ sol_T_star sol' = sol_T_star sol
    /\ sol_total_cost sol' = sol_total_cost sol
    /\ sol_cost_breakdown sol' = sol_cost_breakdown sol
    /\ forall i j it,
         params_items example_small !! i = Some it ->
         [ mkItem "10L" 15%float 200%float 3%float;
           mkItem "1L" 15%float 500%float 2%float;
           mkItem "5L" 15%float 300%float 2.5%float ] !! j = Some it ->
         sol_item_results sol' !! j = sol_item_results sol !! i
         /\ sol_m sol' !! j = sol_m sol !! i.
Proof.
  assert (exists sol, find_formula_policy example_small = Ok sol) as [sol Hsol]
    by (eexists; vm_compute; reflexivity).
  destruct (joint_order_independent example_small
              [ mkItem "10L" 15%float 200%float 3%float;
                mkItem "1L" 15%float 500%float 2%float;
                mkItem "5L" 15%float 300%float 2.5%float ] sol)
    as (sol' & Hsol' & Hrest).
  - unfold example_small. cbn [params_items].
    etransitivity; [|apply perm_swap]. apply perm_skip, perm_swap.
  - exact example_small_distinct_ratios.
  - exact Hsol.
  - exists sol, sol'. split; [exact Hsol|]. split; [exact Hsol'|]. exact Hrest.
Defined.

(** An item with neither demand nor value. *)
Lemma joint_zero_demand_and_value_raises_witness :
  find_formula_policy
    (mkParams 40%float 0.24%float
       [ mkItem "1L" 15%float 500%float 2%float;
         mkItem "5L" 15%float 0%float 0%float ])
  = Raise ZeroDivisionError
  /\ InvalidParameters ZeroDivisionError.
Proof.
  apply (joint_zero_demand_and_value_raises _ (mkItem "5L" 15%float 0%float 0%float)).
  - right; left.
  - reflexivity.
  - reflexivity.
Defined.

(** The lecture instance swept over a major setup cost of 10, 40 and 80. *)
Lemma sweep_matches_direct_solves_witness :
  exists costs,
    sweep example_small OverA [10%float; 40%float; 80%float]
    = (map (fun s => substitute OverA s example_small) [10%float; 40%float; 80%float],
       Ok ([10%float; 40%float; 80%float], costs))
    /\ length costs = 3%nat
    /\ forall i s, [10%float; 40%float; 80%float] !! i = Some s ->
         exists sol,
           find_formula_policy (substitute OverA s example_small) = Ok sol
           /\ costs !! i = Some (sol_total_cost sol).
Proof.
  apply (sweep_matches_direct_solves example_small OverA
           [10%float; 40%float; 80%float] I).
  intros s. rewrite !elem_of_cons, elem_of_nil.
  intros [->|[->|[->|[]]]]; eexists; vm_compute; reflexivity.
Defined.

(** A sweep over the key "x" of item "1L". *)
Lemma sweep_item_bad_key_fails_fast_witness :
  sensitivity_curve_over_item example_small "1L" "x" [10%float; 20%float]
  = ([], Raise (ValueError msg_bad_key))
  /\ InvalidTarget (ValueError msg_bad_key).
Proof.
  apply sweep_item_bad_key_fails_fast; discriminate.
Defined.

(** The lecture instance with the value of item 5L set to zero. *)
Lemma independent_zero_carrying_value_raises_witness :
  find_independent_policy
    (mkParams 40%float 0.24%float
       [ mkItem "1L" 15%float 500%float 2%float;
         mkItem "5L" 15%float 300%float 0%float ])
  = Raise ZeroDivisionError
  /\ InvalidParameters ZeroDivisionError.
Proof.
  destruct (independent_zero_carrying_value_raises
              (mkParams 40%float 0.24%float
                 [ mkItem "1L" 15%float 500%float 2%float;
                   mkItem "5L" 15%float 300%float 0%float ])
              (mkItem "5L" 15%float 300%float 0%float))
    as (e & Hraise & _ & Hvalid).
  - right; left.
  - reflexivity.
  - destruct (Hvalid eq_refl) as [-> Hclass]. split; assumption.
Defined.

(** Two solutions of equal total cost, the first without a cycle time. *)
Lemma compare_policies_diffs_and_label_witness :
  compare_policies
    (mkSol None [1] [] 27%float (mkCost None None 13.5%float 13.5%float)
           "independent_eoq")
    (mkSol (Some 1%float) [1; 2] [] 27%float
           (mkCost (Some 27%float) (Some 0%float) 13.5%float 13.5%float) "formula")
  = mkCmp (-1)%float 0%float "Instance 2" 0.
Proof.
  pose proof (compare_policies_diffs_and_label
    (mkSol None [1] [] 27%float (mkCost None None 13.5%float 13.5%float)
           "independent_eoq")
    (mkSol (Some 1%float) [1; 2] [] 27%float
           (mkCost (Some 27%float) (Some 0%float) 13.5%float 13.5%float) "formula"))
    as (HT & Hnone & Hsome & _ & Hcost & Hcount & _ & _ & Htie).
  specialize (Htie eq_refl). specialize (Hsome 1%float eq_refl).
  destruct (compare_policies _ _) as [dT dC better dN]. simpl in *.
  rewrite HT, Hcost, Hcount, Htie. reflexivity.
Defined.

(** On the lecture instance item 1L has the ratio 0.015, below 0.02 and
    0.025, and the multiplier 1. *)
Lemma joint_multipliers_base_one_witness :
  exists sol : Solution float,
    find_formula_policy example_small = Ok sol
    /\ length (sol_m sol) = 3%nat
    /\ Forall (fun m => (1 <= m)%Z) (sol_m sol)
    /\ sol_m sol !! 0%nat = Some 1.
Proof.
  assert (exists sol, find_formula_policy example_small = Ok sol) as [sol Hsol]
    by (eexists; vm_compute; reflexivity).
  exists sol. split; [exact Hsol|].
  destruct (joint_multipliers_base_one example_small sol Hsol)
    as (base & rest & ms & Hrank & _ & Hlen & Hge & Huniq).
  split; [exact Hlen|]. split; [exact Hge|].
  destruct (Huniq example_small_unique_ids) as [Hbase _].
  assert (rank_items (params_items example_small) = Ok (params_items example_small))
    as E by (vm_compute; reflexivity).
  rewrite E in Hrank. injection Hrank as <- _.
  now apply (Hbase 0%nat).
Defined.


Lemma halfway_binary64_unique_ids : unique_ids (halfway_example (F:=float)).
Proof.
  unfold unique_ids; simpl.
  repeat constructor; rewrite ?elem_of_cons, ?elem_of_nil; intuition discriminate.
Qed.

(** On floats the candidate of item "x" is 2.5, and its multiplier 2. *)
Lemma joint_candidate_tie_rounds_to_even_witness :
  exists sol : Solution float,
    find_formula_policy halfway_example = Ok sol
    /\ m_candidate 0%float (mkItem "base" 1%float 1%float 1%float)
                   (mkItem "x" 25%float 4%float 1%float) = Ok 2.5%float
    /\ sol_m sol !! 1%nat = Some 2.
Proof.
  assert (exists sol, find_formula_policy (halfway_example (F:=float)) = Ok sol)
    as [sol Hsol] by (eexists; vm_compute; reflexivity).
  exists sol. split; [exact Hsol|]. split; [vm_compute; reflexivity|].
  destruct (joint_candidate_tie_rounds_to_even halfway_example sol
              (mkItem "base" 1%float 1%float 1%float)
              [mkItem "x" 25%float 4%float 1%float] 0
              (mkItem "x" 25%float 4%float 1%float) 2.5%float 2)
    as (ms & _ & _ & Hout).
  - exact Hsol.
  - vm_compute; reflexivity.
  - reflexivity.
  - vm_compute; reflexivity.
  - exists false, 5629499534213120%positive, (-51).
    repeat split; vm_compute; reflexivity.
  - apply (Hout halfway_binary64_unique_ids 1%nat). reflexivity.
Defined.

(** Without distinct ids the re-projection can report another item's
    multiplier: of two items under the id "X", the base item is reported
    with the multiplier 10 of the second. *)
Example shared_id_overwrites :
  rank_items (params_items (shared_id_example (F:=float)))
  = Ok (params_items shared_id_example)
  /\ multipliers 0%float (params_items (shared_id_example (F:=float))) = Ok [1; 10]
  /\ sol_m <$> find_formula_policy (shared_id_example (F:=float)) = Ok [10; 10].
Proof. repeat split; vm_compute; reflexivity. Qed.

End Binary64Witnesses.

(** * Further properties of the code *)

Lemma mapM_Raise_inv {A B : Type} (f : A -> result B) (l : list A) (e : py_error) :
  mapM f l = Raise e -> exists x, x ∈ l /\ f x = Raise e.
Proof.
  induction l as [|y l IH]; simpl; [discriminate|].
  destruct (f y) as [z|e'] eqn:Ey; simpl.
  - destruct (mapM f l) as [zs|e'']; simpl; [discriminate|].
    intros [= <-]. destruct IH as (x & Hx & E); [reflexivity|].
    exists x. split; [now right | assumption].
  - intros [= <-]. exists y. split; [left | assumption].
Qed.

#[global] Instance binary64_round_errors : RoundErrors float.
Proof.
  constructor. intros x e. simpl. unfold Binary64.round.
  destruct (Prim2SF x); intros [= <-]; auto.
Qed.

#[global] Instance exact_round_errors : RoundErrors R.
Proof. constructor. intros x e. simpl. discriminate. Qed.

Section JointExceptions.
Context {F : Type} `{PyFloat F}.

Local Open Scope py_scope.

Lemma math_sqrt_raises (x : F) (e : py_error) :
  math_sqrt x = Raise e -> e = ValueError msg_math_domain.
Proof. unfold math_sqrt. destruct (fltb x (of_int 0)); congruence. Qed.

Lemma rank_items_raises (items : list (Item F)) (e : py_error) :
  rank_items items = Raise e -> e = ZeroDivisionError.
Proof.
  unfold rank_items.
  destruct (mapM _ items) as [ratios|e'] eqn:E; simpl; [discriminate|].
  intros [= <-]. apply mapM_Raise_inv in E as (it & _ & E).
  destruct (ratio it) as [q|e''] eqn:Eq; simpl in E; [discriminate|].
  injection E as <-. eapply py_div_raises, Eq.
Qed.

Lemma m_candidate_raises (A : F) (base it : Item F) (e : py_error) :
  m_candidate A base it = Raise e ->
  e = ZeroDivisionError \/ e = ValueError msg_math_domain.
Proof.
  unfold m_candidate.
  destruct (_ / _) as [q|e'] eqn:Eq; simpl.
  - intros E%math_sqrt_raises. now right.
  - intros [= <-]. left. eapply py_div_raises, Eq.
Qed.

Lemma multiplier_raises `{!RoundErrors F} (A : F) (base it : Item F) (e : py_error) :
  multiplier A base it = Raise e -> ArithmeticFailure e.
Proof.
  unfold multiplier, ArithmeticFailure.
  destruct (m_candidate A base it) as [x|e'] eqn:Ec; simpl.
  - destruct (fround x) as [n|e''] eqn:En; simpl; [discriminate|].
    intros [= <-]. apply fround_raises in En. tauto.
  - intros [= <-]. apply m_candidate_raises in Ec. tauto.
Qed.

Lemma multipliers_raises `{!RoundErrors F} (A : F) (ordered : list (Item F))
    (e : py_error) :
  multipliers A ordered = Raise e ->
  (ordered = [] /\ e = IndexError) \/ (ordered <> [] /\ ArithmeticFailure e).
Proof.
  unfold multipliers. destruct ordered as [|base rest]; simpl.
  - intros [= <-]. now left.
  - destruct (mapM _ rest) as [ms|e'] eqn:E; simpl; [discriminate|].
    intros [= <-]. right. split; [discriminate|].
    apply mapM_Raise_inv in E as (it & _ & E). eapply multiplier_raises, E.
Qed.

Lemma cycle_time_T_raises (A r : F) (ordered : list (Item F)) (m_list : list Z)
    (e : py_error) :
  cycle_time_T A r ordered m_list = Raise e -> ArithmeticFailure e.
Proof.
  unfold cycle_time_T, ArithmeticFailure.
  destruct (mapM _ (zip ordered m_list)) as [setups|e'] eqn:E; simpl.
  - destruct (fleb _ _); [intros [= <-]; tauto|].
    destruct (_ / _) as [q|e'] eqn:Eq; simpl.
    + intros Es%math_sqrt_raises. tauto.
    + intros [= <-]. apply py_div_raises in Eq. tauto.
  - intros [= <-]. apply mapM_Raise_inv in E as ([it m] & _ & E).
    apply py_div_raises in E. tauto.
Qed.

Lemma item_metrics_raises (T_star r : F) (it : Item F) (m : Z) (e : py_error) :
  item_metrics T_star r it m = Raise e -> e = ZeroDivisionError.
Proof.
  unfold item_metrics.
  destruct (_ / (of_int 2 * it_v it)) as [avg|e'] eqn:E1; simpl.
  - destruct (it_a it / _) as [s|e'] eqn:E2; simpl; [discriminate|].
    intros [= <-]. eapply py_div_raises, E2.
  - intros [= <-]. eapply py_div_raises, E1.
Qed.

Lemma compute_item_metrics_raises (items : list (Item F)) (T_star : F)
    (m_list : list Z) (r : F) (e : py_error) :
  compute_item_metrics items T_star m_list r = Raise e -> e = ZeroDivisionError.
Proof.
  unfold compute_item_metrics.
  intros ([it m] & _ & E)%mapM_Raise_inv. eapply item_metrics_raises, E.
Qed.

Lemma total_cost_raises (A r : F) (items : list (Item F)) (T : F)
    (m_list : list Z) (e : py_error) :
  total_cost A r items T m_list = Raise e -> e = ZeroDivisionError.
Proof.
  unfold total_cost.
  destruct (mapM (fun '(it, m) => it_a it / of_int m) (zip items m_list))
    as [setups|e1] eqn:E1; simpl.
  2:{ intros [= <-]. apply mapM_Raise_inv in E1 as ([it m] & _ & E1).
      eapply py_div_raises, E1. }
  destruct ((A + py_sum setups) / T) as [g|e2] eqn:E2; simpl.
  2:{ intros [= <-]. eapply py_div_raises, E2. }
  destruct (A / T) as [fam|e3] eqn:E3; simpl.
  2:{ intros [= <-]. eapply py_div_raises, E3. }
  destruct (mapM (fun '(it, m) => it_a it / (of_int m * T)) (zip items m_list))
    as [item_setups|e4] eqn:E4; simpl; [discriminate|].
  intros [= <-]. apply mapM_Raise_inv in E4 as ([it m] & _ & E4).
  eapply py_div_raises, E4.
Qed.

Lemma total_cost_has_total (A r : F) (items : list (Item F)) (T : F)
    (m_list : list Z) (cb : CostBreakdown F) :
  total_cost A r items T m_list = Ok cb -> is_Some (cb_total cb).
Proof. unfold total_cost; intros E; inv_ok. simpl. eauto. Qed.

(** Every input item finds a result under its id. *)
Lemma reprojection_succeeds (items ordered : list (Item F)) (T_star r : F)
    (m_list : list Z) (item_results : list (ItemResult F)) :
  ordered ≡ₚ items -> length m_list = length ordered ->
  compute_item_metrics ordered T_star m_list r = Ok item_results ->
  exists results,
    mapM (fun it => dict_get (index_by_id item_results !! it_id it)) items
    = Ok results.
Proof.
  intros Hperm Hlen Hres.
  pose proof (compute_item_metrics_ids _ _ _ _ _ Hlen Hres) as Hids.
  assert (forall it, it ∈ items -> is_Some (index_by_id item_results !! it_id it))
    as Hall.
  { intros it Hin. apply index_by_id_is_Some. rewrite Hids, Hperm.
    apply list_elem_of_fmap. eauto. }
  clear Hperm. induction items as [|it items IH]; simpl; [eauto|].
  destruct (Hall it) as [res ->]; [left|]. simpl.
  destruct IH as [results ->]; [intros; apply Hall; now right|].
  simpl. eauto.
Qed.

(** Where a failing run stopped: at the first of its five steps that
    raised. The look-up of the results by id and the read of the total
    never raise. *)
Lemma find_formula_policy_fails (params : JRPParams F) (e : py_error) :
  find_formula_policy params = Raise e ->
  rank_items (params_items params) = Raise e
  \/ exists ordered,
       rank_items (params_items params) = Ok ordered
       /\ (multipliers (params_A params) ordered = Raise e
           \/ exists m_list,
                multipliers (params_A params) ordered = Ok m_list
                /\ (cycle_time_T (params_A params) (params_r params) ordered m_list
                    = Raise e
                    \/ exists T_star,
                         cycle_time_T (params_A params) (params_r params)
                                      ordered m_list = Ok T_star
                         /\ (compute_item_metrics ordered T_star m_list
                                                  (params_r params) = Raise e
                             \/ total_cost (params_A params) (params_r params)
                                           ordered T_star m_list = Raise e))).
Proof.
  unfold find_formula_policy.
  destruct (rank_items (params_items params)) as [ordered|e1] eqn:Hrank; simpl;
    [|intros [= <-]; now left].
  intros E. right. exists ordered. split; [reflexivity|].
  destruct (multipliers _ ordered) as [m_list|e2] eqn:Hm; simpl in E;
    [|injection E as <-; now left].
  right. exists m_list. split; [reflexivity|].
  destruct (cycle_time_T _ _ ordered m_list) as [T_star|e3] eqn:HT; simpl in E;
    [|injection E as <-; now left].
  right. exists T_star. split; [reflexivity|].
  destruct (compute_item_metrics ordered T_star m_list _) as [item_results|e4]
    eqn:Hres; simpl in E; [|injection E as <-; now left].
  destruct (total_cost _ _ ordered T_star m_list) as [cb|e5] eqn:Hcb; simpl in E;
    [|injection E as <-; now right].
  destruct (reprojection_succeeds _ _ _ _ _ _ (rank_items_perm _ _ Hrank)
              (multipliers_length _ _ _ Hm) Hres) as [results Hresults].
  rewrite Hresults in E. simpl in E.
  destruct (total_cost_has_total _ _ _ _ _ _ Hcb) as [total Htotal].
  rewrite Htotal in E. discriminate.
Qed.

Lemma rank_items_nil (items ordered : list (Item F)) :
  rank_items items = Ok ordered -> ordered = [] <-> items = [].
Proof.
  intros Hperm%rank_items_perm.
  split; intros E; rewrite E in Hperm;
    [symmetry in Hperm|]; now apply Permutation_nil_r in Hperm.
Qed.

(** X1. A failing joint solve on a non-empty item list raises a
    [ZeroDivisionError], an [OverflowError] (of [round]) or one of three
    [ValueError]s (of [math.sqrt], of [round], of the denominator test):
    never a [KeyError] from the look-up of the results by id, and never an
    [IndexError]. *)
Theorem joint_exceptions `{!RoundErrors F} (params : JRPParams F) (e : py_error) :
  params_items params <> [] ->
  find_formula_policy params = Raise e ->
  ArithmeticFailure e /\ e <> KeyError /\ e <> IndexError.
Proof.
  intros Hne Hfail.
  assert (ArithmeticFailure e) as He.
  { apply find_formula_policy_fails in Hfail
      as [Hrank|(ordered & Hrank & [Hm|(m_list & Hm & [HT|(T & HT & [Hres|Hcb])])])].
    - left. eapply rank_items_raises, Hrank.
    - apply multipliers_raises in Hm as [[E _]|[_ He]]; [|exact He].
      apply (rank_items_nil _ _ Hrank) in E. contradiction.
    - eapply cycle_time_T_raises, HT.
    - left. eapply compute_item_metrics_raises, Hres.
    - left. eapply total_cost_raises, Hcb. }
  split; [exact He|].
  unfold ArithmeticFailure in He.
  split; intros ->; repeat destruct He as [He|He]; discriminate.
Qed.

(** X2. On an empty item list the joint solve raises [IndexError], at the
    read of the base item, whatever the two costs are; the independent
    solve returns the solution with no item and the three totals 0. *)
Theorem empty_item_list (params : JRPParams F) :
  params_items params = [] ->
  find_formula_policy params = Raise IndexError
  /\ find_independent_policy params
     = Ok (mkSol None [] [] (of_int 0)
                 (mkCost None None (of_int 0) (of_int 0)) "independent_eoq").
Proof.
  intros E. unfold find_formula_policy, find_independent_policy.
  now rewrite E.
Qed.

End JointExceptions.

Section JointStructure.
Context {F : Type} `{PyFloat F}.

Local Open Scope py_scope.

Lemma item_metrics_fields (T_star r : F) (it : Item F) (m : Z) (res : ItemResult F) :
  item_metrics T_star r it m = Ok res ->
  res_id res = it_id it /\ res_m res = m
  /\ res_DiVi res = it_D it * it_v it
  /\ res_T_star res = Some T_star
  /\ res_Qivi res = Some (it_D it * it_v it * of_int m * T_star)
  /\ res_cycle_time res = of_int m * T_star
  /\ res_annual_holding_cost res = res_avg_inventory res * it_v it * r
  /\ it_D it * it_v it * of_int m * T_star / (of_int 2 * it_v it)
     = Ok (res_avg_inventory res)
  /\ it_a it / (of_int m * T_star) = Ok (res_annual_setup_cost res)
  /\ res_Q_i res = None /\ res_total_cost_item res = None.
Proof.
  unfold item_metrics; intros E.
  apply bind_Ok in E as (avg & Havg & E).
  apply bind_Ok in E as (setup & Hsetup & E).
  injection E as <-. simpl. now repeat split.
Qed.

(** Each computed result belongs to an item of the ranking, with the
    multiplier at the same position. *)
Lemma compute_item_metrics_elem (items : list (Item F)) (T_star : F)
    (m_list : list Z) (r : F) (item_results : list (ItemResult F))
    (res : ItemResult F) :
  compute_item_metrics items T_star m_list r = Ok item_results ->
  res ∈ item_results ->
  exists j it m,
    items !! j = Some it /\ m_list !! j = Some m
    /\ item_results !! j = Some res
    /\ item_metrics T_star r it m = Ok res.
Proof.
  intros Hall%compute_item_metrics_inv [j Hj]%list_elem_of_lookup.
  destruct (Forall2_lookup_r _ _ _ _ _ Hall Hj) as ([it m] & Hz & Hmet).
  apply lookup_zip_with_Some in Hz as (? & ? & [= <- <-] & Hit & Hm).
  exists j, it, m. auto.
Qed.

(** X3. A solved joint instance reports its results in the order of the
    input items, whatever the ranking was: the result at position [i]
    carries the id of the input item at position [i], a multiplier that is
    at least 1 and is the one listed at position [i] of ["m"], the common
    cycle time, and the cycle time [m * T_star] of the item; the total cost
    is the ["total"] entry of the cost breakdown. *)
Theorem joint_output_follows_input (params : JRPParams F) (sol : Solution F) :
  find_formula_policy params = Ok sol ->
  exists T_star,
    sol_T_star sol = Some T_star
    /\ sol_method sol = "formula"
    /\ cb_total (sol_cost_breakdown sol) = Some (sol_total_cost sol)
    /\ sol_m sol = map res_m (sol_item_results sol)
    /\ Forall2 (fun it res =>
                  res_id res = it_id it
                  /\ (1 <= res_m res)%Z
                  /\ res_T_star res = Some T_star
                  /\ res_cycle_time res = of_int (res_m res) * T_star)
               (params_items params) (sol_item_results sol).
Proof.
  intros Hsol.
  destruct (find_formula_policy_inv _ _ Hsol)
    as (ordered & m_list & T_star & item_results & cb & total
        & Hrank & Hm & _ & Hres & _ & Htot & Hord & Esol).
  exists T_star. rewrite Esol at 1 2 3 4 5. simpl.
  repeat split; try assumption.
  eapply Forall2_impl; [exact Hord|].
  intros it res [Hin Hid]%index_by_id_Some.
  destruct (compute_item_metrics_elem _ _ _ _ _ _ Hres Hin)
    as (j & it' & m & _ & Hmj & _ & Hmet).
  apply item_metrics_fields in Hmet as (_ & Hresm & _ & HT & _ & Hcyc & _).
  repeat split; try assumption.
  - rewrite Hresm.
    pose proof (multipliers_ge_1 _ _ _ Hm) as Hge.
    rewrite Forall_forall in Hge. eapply Hge, list_elem_of_lookup_2, Hmj.
  - now rewrite Hresm.
Qed.

End JointStructure.

Section IndependentStructure.
Context {F : Type} `{PyFloat F}.

Local Open Scope py_scope.

Lemma eoq_item_fields (A r : F) (it : Item F) (res : ItemResult F) :
  eoq_item A r it = Ok res ->
  exists Q_i per_unit,
    of_int 2 * (A + it_a it) * it_D it / (r * it_v it) ≫= math_sqrt = Ok Q_i
    /\ Q_i / it_D it = Ok (res_cycle_time res)
    /\ it_D it / Q_i = Ok per_unit
    /\ res_id res = it_id it /\ res_m res = 1%Z
    /\ res_DiVi res = it_D it * it_v it
    /\ res_T_star res = None /\ res_Qivi res = None
    /\ res_Q_i res = Some Q_i
    /\ res_avg_inventory res = fdiv Q_i (of_int 2)
    /\ res_annual_setup_cost res = (A + it_a it) * per_unit
    /\ res_annual_holding_cost res = fdiv Q_i (of_int 2) * it_v it * r
    /\ res_total_cost_item res
       = Some (res_annual_setup_cost res + res_annual_holding_cost res).
Proof.
  unfold eoq_item; intros E.
  apply bind_Ok in E as (q & Hq & E).
  apply bind_Ok in E as (Q_i & HQ & E).
  apply bind_Ok in E as (cycle & Hcycle & E).
  apply bind_Ok in E as (per_unit & Hper & E).
  injection E as <-. simpl. exists Q_i, per_unit.
  rewrite Hq. simpl. now repeat split.
Qed.

(** The loop appends one result per item, in order, and adds each
    result's costs to the running totals, from left to right. *)
Lemma eoq_loop_inv (A r : F) (items : list (Item F)) (tc ts th : F)
    (acc : list (ItemResult F)) (tc' ts' th' : F) (out : list (ItemResult F)) :
  eoq_loop A r items tc ts th acc = Ok (tc', ts', th', out) ->
  exists news,
    out = acc ++ news
    /\ Forall2 (fun it res => eoq_item A r it = Ok res) items news
    /\ tc' = foldl fadd tc
               (map (fun res => res_annual_setup_cost res
                                + res_annual_holding_cost res) news)
    /\ ts' = foldl fadd ts (map res_annual_setup_cost news)
    /\ th' = foldl fadd th (map res_annual_holding_cost news).
Proof.
  revert tc ts th acc.
  induction items as [|it items IH]; intros tc ts th acc; simpl.
  - intros [= <- <- <- <-]. exists []. rewrite app_nil_r.
    repeat split. constructor.
  - intros E. apply bind_Ok in E as (res & Hres & E).
    apply IH in E as (news & -> & Hall & -> & -> & ->).
    exists (res :: news). rewrite <- app_assoc. simpl.
    repeat split. now constructor.
Qed.

(** X4. A solved independent instance has no common cycle time, the
    multiplier 1 for every item, and one result per input item, in input
    order, each with the id of its item; its three totals are the sums,
    taken from left to right, of the per-item costs it reports. *)
Theorem independent_output_follows_input (params : JRPParams F) (sol : Solution F) :
  find_independent_policy params = Ok sol ->
  sol_T_star sol = None
  /\ sol_method sol = "independent_eoq"
  /\ sol_m sol = replicate (length (params_items params)) 1%Z
  /\ sol_m sol = map res_m (sol_item_results sol)
  /\ cb_total (sol_cost_breakdown sol) = None
  /\ cb_family_setup (sol_cost_breakdown sol) = None
  /\ Forall2 (fun it res =>
                res_id res = it_id it /\ res_T_star res = None
                /\ res_total_cost_item res
                   = Some (res_annual_setup_cost res + res_annual_holding_cost res))
             (params_items params) (sol_item_results sol)
  /\ sol_total_cost sol
     = py_sum (map (fun res => res_annual_setup_cost res
                               + res_annual_holding_cost res)
                   (sol_item_results sol))
  /\ cb_item_setup (sol_cost_breakdown sol)
     = py_sum (map res_annual_setup_cost (sol_item_results sol))
  /\ cb_holding (sol_cost_breakdown sol)
     = py_sum (map res_annual_holding_cost (sol_item_results sol)).
Proof.
  unfold find_independent_policy; intros E.
  apply bind_Ok in E as ([[[tc ts] th] out] & Hloop & E).
  injection E as <-. simpl.
  apply eoq_loop_inv in Hloop as (news & -> & Hall & -> & -> & ->). simpl.
  assert (Forall2 (fun it res => res_id res = it_id it /\ res_m res = 1%Z
                     /\ res_T_star res = None
                     /\ res_total_cost_item res
                        = Some (res_annual_setup_cost res
                                + res_annual_holding_cost res))
                  (params_items params) news) as Hfields.
  { eapply Forall2_impl; [exact Hall|].
    intros it res (Q & u & _ & _ & _ & Hid & Hm & _ & HT & _ & _ & _ & _ & _ & Htc)
             %eoq_item_fields.
    auto. }
  repeat split; try reflexivity.
  - clear Hall. induction Hfields as [|it res items news' (_ & Hm & _) _ IH];
      simpl; [reflexivity|]. now rewrite Hm, IH.
  - eapply Forall2_impl; [exact Hfields|]. simpl. tauto.
Qed.

End IndependentStructure.

Section SweepFailures.
Context {F : Type} `{PyFloat F}.

Lemma sweep_loop_app (local : F -> JRPParams F) (pre rest : list F) :
  (forall s, s ∈ pre -> exists sol, find_formula_policy (local s) = Ok sol) ->
  forall x_vals y_vals calls,
  exists costs,
    length costs = length pre
    /\ sweep_loop local (pre ++ rest) x_vals y_vals calls
       = sweep_loop local rest (x_vals ++ pre) (y_vals ++ costs)
                    (calls ++ map local pre).
Proof.
  induction pre as [|s pre IH]; intros Hall x_vals y_vals calls.
  - exists []. simpl. now rewrite !app_nil_r.
  - destruct (Hall s) as [sol Hsol]; [left|].
    destruct (IH (fun s' Hs' => Hall s' (list_elem_of_further _ _ _ Hs'))
                 (x_vals ++ [s]) (y_vals ++ [sol_total_cost sol])
                 (calls ++ [local s])) as (costs & Hlen & Hrun).
    exists (sol_total_cost sol :: costs). simpl. rewrite Hsol, Hrun.
    rewrite <- !app_assoc. simpl. split; [now rewrite Hlen | reflexivity].
Qed.

(** X5. A sweep stops at the first sample whose solve raises: it raises
    that exception, returns no curve, and has called the solver on the
    samples up to and including the failing one, and on none after it. *)
Theorem sweep_stops_at_first_failure (params : JRPParams F) (target : SweepTarget)
    (pre : list F) (s : F) (post : list F) (e : py_error) :
  match target with OverItem _ key => key ∈ valid_keys | _ => True end ->
  (forall x, x ∈ pre ->
     exists sol, find_formula_policy (substitute target x params) = Ok sol) ->
  find_formula_policy (substitute target s params) = Raise e ->
  sweep params target (pre ++ s :: post)
  = (map (fun x => substitute target x params) (pre ++ [s]), Raise e).
Proof.
  intros Hkey Hpre Hs.
  destruct (sweep_calls_substitute params target (pre ++ s :: post) Hkey)
    as (local & Hlocal & ->).
  destruct (sweep_loop_app local pre (s :: post)) with (x_vals := @nil F)
    (y_vals := @nil F) (calls := @nil (JRPParams F)) as (costs & _ & ->).
  { intros x Hx. rewrite Hlocal. now apply Hpre. }
  simpl. rewrite Hlocal, Hs. f_equal.
  rewrite map_app. simpl. f_equal.
  apply list_fmap_ext. intros ? x _. apply Hlocal.
Qed.

Lemma replace_item_field_absent (item_id key : string) (val : F)
    (items : list (Item F)) :
  (forall it, it ∈ items -> it_id it <> item_id) ->
  replace_item_field item_id key val items = items.
Proof.
  intros Habs. unfold replace_item_field.
  induction items as [|it items IH]; [reflexivity|].
  change ((it :: items) ≫= ?f) with (f it ++ (items ≫= f)).
  rewrite IH by (intros; apply Habs; now right).
  destruct (String.eqb_spec (it_id it) item_id) as [E|_]; [|reflexivity].
  exfalso. eapply Habs; [left | exact E].
Qed.

Lemma sweep_loop_const (local : F -> JRPParams F) (params : JRPParams F)
    (sol : Solution F) (values : list F) :
  (forall s, local s = params) ->
  find_formula_policy params = Ok sol ->
  forall x_vals y_vals calls,
    sweep_loop local values x_vals y_vals calls
    = (calls ++ replicate (length values) params,
       Ok (x_vals ++ values,
           y_vals ++ replicate (length values) (sol_total_cost sol))).
Proof.
  intros Hlocal Hsol.
  induction values as [|s values IH]; intros x_vals y_vals calls; simpl.
  - now rewrite !app_nil_r.
  - rewrite Hlocal, Hsol, IH, <- !app_assoc. reflexivity.
Qed.

(** X6. An item sweep under an id that no item carries is not rejected:
    every sample solves the base parameters unchanged, so the curve is
    flat at the base total cost. *)
Theorem sweep_unknown_item_is_flat (params : JRPParams F) (item_id key : string)
    (values : list F) (sol : Solution F) :
  key ∈ valid_keys ->
  (forall it, it ∈ params_items params -> it_id it <> item_id) ->
  find_formula_policy params = Ok sol ->
  sensitivity_curve_over_item params item_id key values
  = (replicate (length values) params,
     Ok (values, replicate (length values) (sol_total_cost sol))).
Proof.
  intros Hkey Habs Hsol. unfold sensitivity_curve_over_item.
  rewrite bool_decide_eq_true_2 by assumption.
  apply (sweep_loop_const _ params sol values); [|assumption].
  intros s. rewrite replace_item_field_absent by assumption.
  now destruct params.
Qed.

End SweepFailures.

Section Reprojection.
Context {F : Type} `{PyFloat F}.



End Reprojection.

(** ** The cycle time and the setup costs of a solved joint instance *)

Section JointFormulas.
Context {F : Type} `{PyFloat F}.

Local Open Scope py_scope.





End JointFormulas.

(** ** The order quantities of a solved independent instance *)

Section IndependentFormulas.
Context {F : Type} `{PyFloat F}.

Local Open Scope py_scope.



End IndependentFormulas.

(** ** Failures on validated input, on floats and on reals *)

Section ValidatedFailures.
Context {F : Type} `{PyFloatLaws F}.

Local Open Scope py_scope.

Lemma eoq_loop_fails (A r : F) (items : list (Item F)) (e : py_error) :
  forall tc ts th acc,
    eoq_loop A r items tc ts th acc = Raise e ->
    exists it, it ∈ items /\ eoq_item A r it = Raise e.
Proof.
  induction items as [|it items IH]; intros tc ts th acc; simpl; [discriminate|].
  destruct (eoq_item A r it) as [res|e'] eqn:E; cbn [mbind result_bind].
  - intros (it' & Hin & E')%IH. exists it'. split; [now right | exact E'].
  - intros [= <-]. exists it. split; [left | exact E].
Qed.

(** X14. On parameters that pass the validation the independent solve
    raises nothing but [ZeroDivisionError], on floats as on reals: the
    argument of its square root is never negative. *)
Theorem independent_validated_failure (params : JRPParams F) (e : py_error) :
  validate_instance params = true ->
  find_independent_policy params = Raise e ->
  e = ZeroDivisionError.
Proof.
  unfold validate_instance. rewrite !andb_true_iff.
  intros [[[HA Hr] _] Hall]. rewrite forallb_forall in Hall.
  unfold find_independent_policy.
  destruct (eoq_loop _ _ _ _ _ _ _) as [out|e'] eqn:Hloop;
    cbn [mbind result_bind]; [destruct out as [[[? ?] ?] ?]; discriminate|].
  intros [= <-]. apply eoq_loop_fails in Hloop as (it & Hin & E).
  eapply (eoq_item_raises (params_A params) (params_r params) it);
    [exact HA | exact Hr | | exact E].
  apply Hall, list_elem_of_In, Hin.
Qed.

Context `{!OfIntLaws F} `{!RoundErrors F}.

Lemma py_sum_nonneg_laws (xs : list F) :
  Forall (fun x => nonneg x = true) xs -> nonneg (py_sum xs) = true.
Proof.
  unfold py_sum. assert (nonneg (of_int 0 : F) = true) as Hzero
    by (apply nonneg_of_int; lia).
  revert Hzero. generalize (of_int 0 : F).
  intros acc Hacc Hall. revert acc Hacc.
  induction Hall as [|x xs Hx _ IH]; intros acc Hacc; simpl; [exact Hacc|].
  apply IH. now apply nonneg_add.
Qed.

Lemma py_div_nonneg (x y q : F) :
  nonneg x = true -> nonneg y = true -> x / y = Ok q -> nonneg q = true.
Proof.
  intros Hx Hy. unfold py_div.
  destruct (feqb y (of_int 0)) eqn:Hz; [discriminate|].
  intros [= <-]. now apply nonneg_div.
Qed.

Lemma m_candidate_validated (A : F) (base it : Item F) (e : py_error) :
  nonneg A = true -> valid_item base = true -> valid_item it = true ->
  m_candidate A base it = Raise e -> e = ZeroDivisionError.
Proof.
  unfold valid_item. rewrite !andb_true_iff.
  intros HA [[Hab HDb] Hvb] [[Ha HD] Hv]. unfold m_candidate.
  destruct (_ / _) as [q|e'] eqn:Eq; cbn [mbind result_bind].
  - rewrite math_sqrt_nonneg; [discriminate|].
    eapply py_div_nonneg; [| |exact Eq].
    + repeat apply nonneg_mul; assumption.
    + apply nonneg_mul; [now apply nonneg_add | now apply nonneg_mul].
  - intros [= <-]. eapply py_div_raises, Eq.
Qed.

Lemma cycle_time_T_validated (A r : F) (ordered : list (Item F))
    (m_list : list Z) (e : py_error) :
  nonneg A = true -> nonneg r = true ->
  (forall it m, (it, m) ∈ zip ordered m_list ->
     valid_item it = true /\ (1 <= m)%Z) ->
  cycle_time_T A r ordered m_list = Raise e -> InvalidParameters e.
Proof.
  intros HA Hr Hpairs. unfold cycle_time_T, InvalidParameters.
  destruct (mapM _ (zip ordered m_list)) as [setups|e'] eqn:E;
    cbn [mbind result_bind].
  2:{ intros [= <-]. apply mapM_Raise_inv in E as ([it m] & _ & E).
      left. eapply py_div_raises, E. }
  destruct (fleb _ _); [intros [= <-]; now right|].
  destruct (_ / _) as [q|e'] eqn:Eq; cbn [mbind result_bind].
  2:{ intros [= <-]. left. eapply py_div_raises, Eq. }
  rewrite math_sqrt_nonneg; [discriminate|].
  eapply py_div_nonneg; [| |exact Eq].
  - apply nonneg_mul; [apply nonneg_two|]. apply nonneg_add; [exact HA|].
    apply py_sum_nonneg_laws.
    apply Forall_forall. intros x [i Hi]%list_elem_of_lookup.
    apply mapM_Ok_Forall2 in E.
    destruct (Forall2_lookup_r _ _ _ _ _ E Hi) as ([it m] & Hp & Hx).
    destruct (Hpairs it m) as [Hv Hm]; [eapply list_elem_of_lookup_2, Hp|].
    unfold valid_item in Hv. rewrite !andb_true_iff in Hv.
    eapply py_div_nonneg; [| |exact Hx]; [tauto|]. apply nonneg_of_int. lia.
  - apply nonneg_mul; [exact Hr|]. apply py_sum_nonneg_laws.
    apply Forall_forall. intros x ([it m] & -> & Hin)%list_elem_of_fmap.
    destruct (Hpairs it m Hin) as [Hv Hm].
    unfold valid_item in Hv. rewrite !andb_true_iff in Hv.
    repeat apply nonneg_mul; try tauto. apply nonneg_of_int. lia.
Qed.

(** X15. On parameters that pass the validation, on floats as on reals, a
    failing joint solve raises [ZeroDivisionError], the [ValueError] of the
    non-positive denominator, or one of the two exceptions of [round] (an
    infinite or NaN candidate): the argument of a square root is never
    negative, so [math.sqrt] does not raise. *)
Theorem joint_validated_failure (params : JRPParams F) (e : py_error) :
  validate_instance params = true ->
  find_formula_policy params = Raise e ->
  InvalidParameters e \/ e = OverflowError \/ e = ValueError msg_round_nan.
Proof.
  unfold validate_instance. rewrite !andb_true_iff, negb_true_iff.
  intros [[[HA Hr] Hne%bool_decide_eq_false] Hall] Hfail.
  rewrite forallb_forall in Hall.
  apply find_formula_policy_fails in Hfail
    as [Hrank|(ordered & Hrank & [Hm|(m_list & Hm & [HT|(T & HT & [Hres|Hcb])])])].
  - left; left. eapply rank_items_raises, Hrank.
  - pose proof (rank_items_perm _ _ Hrank) as Hperm.
    unfold multipliers in Hm. destruct ordered as [|base rest]; simpl in Hm.
    { symmetry in Hperm. apply Permutation_nil_r in Hperm. contradiction. }
    destruct (mapM _ rest) as [ms|e'] eqn:E; simpl in Hm; [discriminate|].
    injection Hm as <-. apply mapM_Raise_inv in E as (it & Hin & E).
    unfold multiplier in E.
    destruct (m_candidate _ base it) as [x|e''] eqn:Ec; cbn [mbind result_bind] in E.
    + destruct (fround x) as [n|e''] eqn:En; cbn [mbind result_bind] in E;
        [discriminate|].
      injection E as <-. right. eapply fround_raises, En.
    + injection E as <-. left; left.
      eapply (m_candidate_validated (params_A params) base it); [exact HA| | |exact Ec].
      * apply Hall, list_elem_of_In. rewrite <- Hperm. left.
      * apply Hall, list_elem_of_In. rewrite <- Hperm. now right.
  - left. eapply cycle_time_T_validated; [exact HA | exact Hr | | exact HT].
    intros it m Hin. split.
    + apply Hall, list_elem_of_In. rewrite <- (rank_items_perm _ _ Hrank).
      eapply elem_of_zip_l, Hin.
    + pose proof (multipliers_ge_1 _ _ _ Hm) as Hge.
      rewrite Forall_forall in Hge. eapply Hge, elem_of_zip_r, Hin.
  - left; left. eapply compute_item_metrics_raises, Hres.
  - left; left. eapply total_cost_raises, Hcb.
Qed.

End ValidatedFailures.

(** ** The validator *)

Lemma bind_Return {A B : Type} (m : outcome A) (k : A -> outcome B) (y : B) :
  m ≫= k = Return y -> exists x, m = Return x /\ k x = Return y.
Proof. destruct m as [x|e]; simpl; [eauto | discriminate]. Qed.

Section ValidatorFacts.
Import Validators.

Lemma py_in_dict (k : string) (d : list (string * json)) :
  py_in k (JDict d) = Return true <-> is_Some (dict_lookup k d).
Proof.
  simpl. split.
  - intros [= E]. now apply bool_decide_eq_true in E.
  - intros E. now rewrite bool_decide_eq_true_2.
Qed.

Lemma py_getitem_Return (x : json) (k : string) (val : json) :
  py_getitem x k = Return val <-> exists d, x = JDict d /\ dict_lookup k d = Some val.
Proof.
  split.
  - destruct x; simpl; try discriminate.
    destruct (dict_lookup k d) eqn:E; [|discriminate]. intros [= <-]. eauto.
  - intros (d & -> & E). simpl. now rewrite E.
Qed.

Lemma nonneg_None (name : string) (val : json) :
  nonneg name val = None <-> numeric_nonneg val.
Proof.
  unfold nonneg, numeric_nonneg.
  destruct (is_numeric val), (is_negative val); simpl;
    split; try discriminate; try tauto; intros [? ?]; discriminate.
Qed.

(** The checks only append: what a check returns is the list it was
    given, followed by the messages it adds. *)
Lemma check_keys_inv (msg : string -> string) (keys : list string) (x : json)
    (errors errors' : list string) :
  check_keys msg keys x errors = Return errors' ->
  exists extra,
    errors' = errors ++ extra
    /\ (extra = [] <-> Forall (fun k => py_in k x = Return true) keys).
Proof.
  revert errors. induction keys as [|k keys IH]; intros errors; simpl.
  - intros [= <-]. exists []. rewrite app_nil_r. split; [reflexivity|].
    split; [constructor | reflexivity].
  - intros E. apply bind_Return in E as (present & Hin & E).
    apply IH in E as (extra & -> & Hextra). destruct present.
    + exists extra. split; [reflexivity|]. rewrite Hextra, Forall_cons. tauto.
    + exists (msg k :: extra). rewrite <- app_assoc. split; [reflexivity|].
      split; [discriminate|]. intros [E _]%Forall_cons. congruence.
Qed.

Lemma check_field_inv (name key : string) (x : json) (errors errors' : list string) :
  check_field name key x errors = Return errors' ->
  exists extra,
    errors' = errors ++ extra
    /\ (extra = [] <->
        py_in key x = Return false
        \/ exists val, py_in key x = Return true
                       /\ py_getitem x key = Return val /\ numeric_nonneg val).
Proof.
  unfold check_field. intros E.
  apply bind_Return in E as (present & Hin & E). destruct present.
  - apply bind_Return in E as (val & Hval & E). injection E as <-.
    destruct (nonneg name val) as [e|] eqn:Hn.
    + exists [e]. split; [reflexivity|]. split; [discriminate|].
      intros [?|(val' & _ & Hval' & Hnn)]; [congruence|].
      assert (val' = val) as -> by congruence.
      apply (nonneg_None name) in Hnn. congruence.
    + exists []. rewrite app_nil_r. split; [reflexivity|].
      split; [|reflexivity]. intros _. right. exists val.
      repeat split; try assumption; now apply (nonneg_None name).
  - injection E as <-. exists []. rewrite app_nil_r. split; [reflexivity|].
    split; [|reflexivity]. intros _. now left.
Qed.

Lemma field_of_well_formed (key : string) (x : json) :
  py_in key x = Return true ->
  (py_in key x = Return false
   \/ exists val, py_in key x = Return true
                  /\ py_getitem x key = Return val /\ numeric_nonneg val) ->
  exists d val, x = JDict d /\ dict_lookup key d = Some val /\ numeric_nonneg val.
Proof.
  intros Hin [?|(val & _ & (d & -> & Hval)%py_getitem_Return & Hnn)]; [congruence|].
  eauto.
Qed.

Lemma validate_item_inv (idx : nat) (it : json) (errors errors' : list string) :
  validate_item idx it errors = Return errors' ->
  exists extra,
    errors' = errors ++ extra /\ (extra = [] <-> well_formed_item it).
Proof.
  unfold validate_item. intros E.
  apply bind_Return in E as (e1 & H1 & E).
  apply bind_Return in E as (e2 & H2 & E).
  apply bind_Return in E as (e3 & H3 & E).
  apply check_keys_inv in H1 as (x1 & -> & Hx1).
  apply check_field_inv in H2 as (x2 & -> & Hx2).
  apply check_field_inv in H3 as (x3 & -> & Hx3).
  apply check_field_inv in E as (x4 & -> & Hx4).
  exists (x1 ++ x2 ++ x3 ++ x4). rewrite <- !app_assoc. split; [reflexivity|].
  rewrite !app_nil, Hx1, Hx2, Hx3, Hx4. rewrite !Forall_cons. split.
  - intros ((Hid & Ha & HD & Hv & _) & Fa & FD & Fv).
    destruct (field_of_well_formed _ _ Ha Fa) as (d & a & -> & Hla & Hna).
    destruct (field_of_well_formed _ _ HD FD) as (d' & D & [= <-] & HlD & HnD).
    destruct (field_of_well_formed _ _ Hv Fv) as (d' & v & [= <-] & Hlv & Hnv).
    apply py_in_dict in Hid.
    exists d, a, D, v. tauto.
  - intros (d & a & D & v & -> & Hid & Hla & Hna & HlD & HnD & Hlv & Hnv).
    assert (py_in "a" (JDict d) = Return true) as Ha
      by (apply py_in_dict; rewrite Hla; eauto).
    assert (py_in "D" (JDict d) = Return true) as HD
      by (apply py_in_dict; rewrite HlD; eauto).
    assert (py_in "v" (JDict d) = Return true) as Hv
      by (apply py_in_dict; rewrite Hlv; eauto).
    split; [|split; [|split]].
    + repeat split; try assumption; [now apply py_in_dict | constructor].
    + right. exists a. split; [exact Ha|]. split; [|exact Hna].
      simpl. now rewrite Hla.
    + right. exists D. split; [exact HD|]. split; [|exact HnD].
      simpl. now rewrite HlD.
    + right. exists v. split; [exact Hv|]. split; [|exact Hnv].
      simpl. now rewrite Hlv.
Qed.

Lemma validate_items_inv (items : list json) :
  forall (idx : nat) (errors errors' : list string),
    validate_items idx items errors = Return errors' ->
    exists extra,
      errors' = errors ++ extra /\ (extra = [] <-> Forall well_formed_item items).
Proof.
  induction items as [|it items IH]; intros idx errors errors'; simpl.
  - intros [= <-]. exists []. rewrite app_nil_r. split; [reflexivity|].
    split; [constructor | reflexivity].
  - intros E. apply bind_Return in E as (e1 & H1 & E).
    apply validate_item_inv in H1 as (x1 & -> & Hx1).
    apply IH in E as (x2 & -> & Hx2).
    exists (x1 ++ x2). rewrite <- app_assoc. split; [reflexivity|].
    rewrite app_nil, Hx1, Hx2, Forall_cons. tauto.
Qed.

Lemma py_in_dict_true (k : string) (d : list (string * json)) (val : json) :
  dict_lookup k d = Some val -> py_in k (JDict d) = Return true.
Proof. intros E. apply py_in_dict. rewrite E. eauto. Qed.

Lemma py_getitem_dict (k : string) (d : list (string * json)) (val : json) :
  dict_lookup k d = Some val -> py_getitem (JDict d) k = Return val.
Proof. intros E. simpl. now rewrite E. Qed.

Lemma check_field_accepts (name key : string) (d : list (string * json))
    (val : json) (errors : list string) :
  dict_lookup key d = Some val -> numeric_nonneg val ->
  check_field name key (JDict d) errors = Return errors.
Proof.
  intros E Hnn. unfold check_field.
  rewrite (py_in_dict_true _ _ _ E). cbn [mbind outcome_bind].
  rewrite (py_getitem_dict _ _ _ E). cbn [mbind outcome_bind].
  now rewrite (proj2 (nonneg_None name val) Hnn).
Qed.

Lemma validate_items_accepts (items : list json) :
  Forall well_formed_item items ->
  forall idx errors, validate_items idx items errors = Return errors.
Proof.
  induction 1 as [|it items Hit _ IH]; intros idx errors; simpl; [reflexivity|].
  destruct Hit as (d & a & D & v & -> & [id Hid] & Hla & Hna & HlD & HnD & Hlv & Hnv).
  unfold validate_item. cbn [check_keys].
  rewrite (py_in_dict_true _ _ _ Hid), (py_in_dict_true _ _ _ Hla),
    (py_in_dict_true _ _ _ HlD), (py_in_dict_true _ _ _ Hlv).
  cbn [mbind outcome_bind].
  rewrite (check_field_accepts _ _ _ _ _ Hla Hna). cbn [mbind outcome_bind].
  rewrite (check_field_accepts _ _ _ _ _ HlD HnD). cbn [mbind outcome_bind].
  rewrite (check_field_accepts _ _ _ _ _ Hlv Hnv). cbn [mbind outcome_bind].
  apply IH.
Qed.

Lemma validate_accepts_sound (data : json) :
  validate_instance data = Return [] -> well_formed data.
Proof.
  unfold validate_instance. intros E.
  apply bind_Return in E as (e1 & H1 & E).
  apply bind_Return in E as (has & Hhas & E).
  apply bind_Return in E as (e2 & H2 & E).
  apply bind_Return in E as (e3 & H3 & E).
  apply bind_Return in E as (e4 & H4 & E).
  apply bind_Return in E as (has' & Hhas' & E).
  assert (has' = has) as -> by congruence.
  apply check_keys_inv in H1 as (x1 & -> & Hx1). simpl in Hx1.
  apply check_field_inv in H3 as (x3 & -> & Hx3).
  apply check_field_inv in H4 as (x4 & -> & Hx4).
  destruct has.
  2:{ injection H2 as <-. injection E as E.
      rewrite !app_nil in E. destruct E as [[E1 _] _].
      apply Hx1 in E1. rewrite !Forall_cons in E1.
      destruct E1 as (_ & _ & E1 & _). congruence. }
  apply bind_Return in H2 as (items & Hitems & H2). injection H2 as <-.
  apply bind_Return in E as (items' & Hitems' & E).
  assert (items' = items) as -> by congruence.
  assert (exists l, items = JList l /\ is_list items = true
                    /\ validate_items 0 l
                         (if bool_decide (length l = 0%nat)
                          then ((x1 ++ x3) ++ x4) ++ ["items list must be non-empty"]
                          else (x1 ++ x3) ++ x4) = Return []) as (l & -> & _ & Hl).
  { destruct items; simpl in E;
      try (injection E as E; rewrite !app_nil in E;
           destruct E as [[[_ E] _] _]; discriminate).
    eauto. }
  simpl in E. clear E.
  apply validate_items_inv in Hl as (x5 & E & Hx5).
  destruct (bool_decide (length l = 0%nat)) eqn:Hlen;
    symmetry in E; rewrite !app_nil in E;
    [destruct E as [[_ E] _]; discriminate|].
  destruct E as [[[E1 E3] E4] E5].
  apply bool_decide_eq_false in Hlen.
  apply Hx1 in E1. rewrite !Forall_cons in E1. destruct E1 as (HA & Hr & _).
  destruct (field_of_well_formed _ _ HA (proj1 Hx3 E3)) as (d & A & -> & HlA & HnA).
  destruct (field_of_well_formed _ _ Hr (proj1 Hx4 E4))
    as (d' & r & [= <-] & Hlr & Hnr).
  apply py_getitem_Return in Hitems as (d' & [= <-] & Hli).
  exists d, A, r, l. repeat split; try assumption; try apply HnA; try apply Hnr.
  - intros ->. now apply Hlen.
  - now apply Hx5.
Qed.

(** X16. The validator reports no error exactly on the well-formed input:
    a dictionary whose ["A"] and ["r"] are numbers that are not negative
    and whose ["items"] is a non-empty list of dictionaries, each with an
    ["id"] and with ["a"], ["D"], ["v"] numbers that are not negative.
    (A boolean counts as a number, and a NaN is not negative.) *)
Theorem validate_instance_accepts (data : json) :
  validate_instance data = Return [] <-> well_formed data.
Proof.
  split; [apply validate_accepts_sound|].
  intros (d & A & r & items & -> & HlA & HnA & Hlr & Hnr & Hli & Hne & Hall).
  unfold validate_instance. cbn [check_keys].
  rewrite (py_in_dict_true _ _ _ HlA), (py_in_dict_true _ _ _ Hlr),
    (py_in_dict_true _ _ _ Hli).
  cbn [mbind outcome_bind].
  rewrite (py_getitem_dict _ _ _ Hli). cbn [mbind outcome_bind mret outcome_ret is_list].
  rewrite (check_field_accepts _ _ _ _ _ HlA HnA). cbn [mbind outcome_bind].
  rewrite (check_field_accepts _ _ _ _ _ Hlr Hnr). cbn [mbind outcome_bind].
  rewrite bool_decide_eq_false_2 by (destruct items; [contradiction | discriminate]).
  now apply validate_items_accepts.
Qed.

End ValidatorFacts.

(** ** Integers as floats *)

Section IntToFloat.
Import Binary64 Binary64Facts.

Lemma binary_round_nonneg (m : positive) (e : Z) :
  sf_nonneg (binary_round prec emax false m e) = true.
Proof.
  unfold binary_round. destruct (shl_align _ _ _). apply binary_round_aux_nonneg.
Qed.

Lemma binary_normalize_nonneg (z e : Z) :
  0 <= z -> sf_nonneg (binary_normalize prec emax z e false) = true.
Proof.
  intros Hz. destruct z as [|p|p]; simpl; [reflexivity | | lia].
  apply binary_round_nonneg.
Qed.

Lemma SFldexp_nonneg (x : spec_float) (e : Z) :
  sf_nonneg x = true -> sf_nonneg (SFldexp prec emax x e) = true.
Proof.
  destruct x as [s|s| |s m ex]; try (intros H; exact H).
  destruct s; [discriminate|]. intros _. apply binary_round_nonneg.
Qed.

(** The float built from a specification that is not negative is not
    negative. *)
Lemma SF2Prim_nonneg (x : spec_float) :
  sf_nonneg x = true -> sf_nonneg (Prim2SF (SF2Prim x)) = true.
Proof.
  destruct x as [s|s| |s m e]; try destruct s; try discriminate; intros _;
    try reflexivity.
  unfold SF2Prim. rewrite Z_ldexp_spec, of_uint63_spec.
  apply SFldexp_nonneg, binary_normalize_nonneg.
  apply Uint63.to_Z_bounded.
Qed.

Lemma int_to_float_nonneg (z : Z) : 0 <= z -> nonneg (int_to_float z) = true.
Proof.
  intros Hz. rewrite nonneg_sf. unfold int_to_float.
  now apply SF2Prim_nonneg, binary_normalize_nonneg.
Qed.

End IntToFloat.

(** ** When the validator raises *)

Section ValidatorRaises.
Import Validators.

Lemma py_in_raises (k : string) (x : json) (e : py_exception) :
  py_in k x = Throw e -> e = TypeError /\ is_dict x = false.
Proof. destruct x; simpl; try discriminate; intros [= <-]; auto. Qed.

Lemma py_getitem_guarded (k : string) (x : json) (e : py_exception) :
  py_in k x = Return true -> py_getitem x k = Throw e ->
  e = TypeError /\ is_dict x = false.
Proof.
  destruct x; simpl; try discriminate; try (intros _ [= <-]; auto).
  intros [= Hin]. apply bool_decide_eq_true in Hin as [val ->]. discriminate.
Qed.

Lemma check_keys_raises (msg : string -> string) (keys : list string) (x : json)
    (errors : list string) (e : py_exception) :
  check_keys msg keys x errors = Throw e -> e = TypeError /\ is_dict x = false.
Proof.
  revert errors. induction keys as [|k keys IH]; intros errors; simpl;
    [discriminate|].
  destruct (py_in k x) as [present|e'] eqn:Hin; cbn [mbind outcome_bind].
  - apply IH.
  - intros [= <-]. eapply py_in_raises, Hin.
Qed.

Lemma check_field_raises (name key : string) (x : json) (errors : list string)
    (e : py_exception) :
  check_field name key x errors = Throw e -> e = TypeError /\ is_dict x = false.
Proof.
  unfold check_field.
  destruct (py_in key x) as [[|]|e'] eqn:Hin; cbn [mbind outcome_bind].
  - destruct (py_getitem x key) as [val|e'] eqn:Hget; cbn [mbind outcome_bind];
      [discriminate|].
    intros [= <-]. eapply py_getitem_guarded; eassumption.
  - discriminate.
  - intros [= <-]. eapply py_in_raises, Hin.
Qed.

Lemma validate_item_raises (idx : nat) (it : json) (errors : list string)
    (e : py_exception) :
  validate_item idx it errors = Throw e -> e = TypeError /\ is_dict it = false.
Proof.
  unfold validate_item.
  destruct (check_keys _ _ it errors) as [e1|e'] eqn:H1; cbn [mbind outcome_bind];
    [|intros [= <-]; eapply check_keys_raises, H1].
  destruct (check_field _ "a" it e1) as [e2|e'] eqn:H2; cbn [mbind outcome_bind];
    [|intros [= <-]; eapply check_field_raises, H2].
  destruct (check_field _ "D" it e2) as [e3|e'] eqn:H3; cbn [mbind outcome_bind];
    [|intros [= <-]; eapply check_field_raises, H3].
  apply check_field_raises.
Qed.

Lemma validate_items_raises (items : list json) :
  forall (idx : nat) (errors : list string) (e : py_exception),
    validate_items idx items errors = Throw e ->
    e = TypeError /\ exists it, it ∈ items /\ is_dict it = false.
Proof.
  induction items as [|it items IH]; intros idx errors e; simpl; [discriminate|].
  destruct (validate_item idx it errors) as [e1|e'] eqn:H1; cbn [mbind outcome_bind].
  - intros (-> & it' & Hin & Hit)%IH. split; [reflexivity|].
    exists it'. split; [now right | exact Hit].
  - intros [= <-]. apply validate_item_raises in H1 as [-> Hit].
    split; [reflexivity|]. exists it. split; [left | exact Hit].
Qed.

(** X17. The validator raises nothing but [TypeError], and only on input
    that is not a dictionary or whose ["items"] list has an element that is
    not a dictionary; on any other input it returns its list of messages.
    A key it reads is a key it has tested, so it raises no [KeyError]. *)
Theorem validate_instance_raises (data : json) (e : py_exception) :
  validate_instance data = Throw e ->
  e = TypeError
  /\ (is_dict data = false
      \/ exists d l it,
           data = JDict d /\ dict_lookup "items" d = Some (JList l)
           /\ it ∈ l /\ is_dict it = false).
Proof.
  unfold validate_instance.
  destruct (check_keys _ _ data []) as [e1|e'] eqn:H1; cbn [mbind outcome_bind];
    [|intros [= <-]; apply check_keys_raises in H1 as [-> ?]; auto].
  destruct (py_in "items" data) as [has|e'] eqn:Hhas; cbn [mbind outcome_bind];
    [|intros [= <-]; apply py_in_raises in Hhas as [-> ?]; auto].
  destruct has.
  - destruct (py_getitem data "items") as [items|e'] eqn:Hitems;
      cbn [mbind outcome_bind mret outcome_ret];
      [|intros [= <-];
        destruct (py_getitem_guarded _ _ _ Hhas Hitems) as [-> ?]; auto].
    destruct (check_field "A" "A" data _) as [e3|e'] eqn:H3; cbn [mbind outcome_bind];
      [|intros [= <-]; apply check_field_raises in H3 as [-> ?]; auto].
    destruct (check_field "r" "r" data e3) as [e4|e'] eqn:H4; cbn [mbind outcome_bind];
      [|intros [= <-]; apply check_field_raises in H4 as [-> ?]; auto].
    apply py_getitem_Return in Hitems as (d & -> & Hitems).
    destruct items; try discriminate.
    intros (-> & it & Hin & Hit)%validate_items_raises.
    split; [reflexivity|]. right. exists d, l, it. auto.
  - cbn [mbind outcome_bind mret outcome_ret].
    destruct (check_field "A" "A" data e1) as [e3|e'] eqn:H3; cbn [mbind outcome_bind];
      [|intros [= <-]; apply check_field_raises in H3 as [-> ?]; auto].
    destruct (check_field "r" "r" data e3) as [e4|e'] eqn:H4; cbn [mbind outcome_bind];
      [|intros [= <-]; apply check_field_raises in H4 as [-> ?]; auto].
    discriminate.
Qed.

End ValidatorRaises.

(** ** From validated input to validated parameters *)

Section LoaderFacts.
Import Binary64 Binary64Facts.
Variable float_of_str : string -> result float.
Variable load_json_bytes : list Byte.byte -> outcome json.


(** [float] on a number that passed the validator: the number as a float
    that is not negative, or the [OverflowError] of an integer too large. *)
Lemma py_float_validated (val : json) :
  numeric_nonneg val ->
  Loader.py_float float_of_str val = Throw (Builtin OverflowError)
  \/ exists x, Loader.py_float float_of_str val = Return x /\ nonneg x = true.
Proof.
  intros [Hnum Hneg]. destruct val; try discriminate; simpl in *.
  - right. eexists. split; [reflexivity|]. now destruct b.
  - destruct (Prim2SF (int_to_float z)) eqn:E; auto; right;
      (eexists; split; [reflexivity|]); apply int_to_float_nonneg; lia.
  - right. exists f. split; [reflexivity|].
    unfold nonneg. simpl. change (int_to_float 0) with 0%float. now rewrite Hneg.
Qed.

Lemma to_item_validated (it : json) :
  well_formed_item it ->
  Loader.to_item float_of_str it = Throw (Builtin OverflowError)
  \/ exists ri, Loader.to_item float_of_str it = Return ri
                /\ nonneg (raw_a ri) = true /\ nonneg (raw_D ri) = true
                /\ nonneg (raw_v ri) = true.
Proof.
  intros (d & a & D & v & -> & [id Hid] & Hla & Hna & HlD & HnD & Hlv & Hnv).
  unfold Loader.to_item.
  rewrite (py_getitem_dict _ _ _ Hid), (py_getitem_dict _ _ _ Hla),
    (py_getitem_dict _ _ _ HlD), (py_getitem_dict _ _ _ Hlv).
  cbn [mbind outcome_bind].
  destruct (py_float_validated a Hna) as [->|(xa & -> & Hxa)]; [now left|].
  cbn [mbind outcome_bind].
  destruct (py_float_validated D HnD) as [->|(xD & -> & HxD)]; [now left|].
  cbn [mbind outcome_bind].
  destruct (py_float_validated v Hnv) as [->|(xv & -> & Hxv)]; [now left|].
  cbn [mbind outcome_bind]. right. eexists. split; [reflexivity|]. auto.
Qed.

Lemma to_items_validated (items : list json) :
  Forall well_formed_item items ->
  mapM (Loader.to_item float_of_str) items = Throw (Builtin OverflowError)
  \/ exists ris, mapM (Loader.to_item float_of_str) items = Return ris
                 /\ length ris = length items
                 /\ Forall (fun ri => nonneg (raw_a ri) = true
                                      /\ nonneg (raw_D ri) = true
                                      /\ nonneg (raw_v ri) = true) ris.
Proof.
  induction 1 as [|it items Hit _ IH]; simpl.
  - right. exists []. repeat split. constructor.
  - destruct (to_item_validated it Hit) as [->|(ri & -> & Hri)]; [now left|].
    cbn [mbind outcome_bind].
    destruct IH as [->|(ris & -> & Hlen & Hris)]; [now left|].
    cbn [mbind outcome_bind]. right. exists (ri :: ris).
    split; [reflexivity|]. split; [simpl; now rewrite Hlen|]. now constructor.
Qed.

Lemma as_params_validated (raw : RawParams) (params : JRPParams float) :
  nonneg (raw_A raw) = true -> nonneg (raw_r raw) = true ->
  raw_items raw <> [] ->
  Forall (fun ri => nonneg (raw_a ri) = true /\ nonneg (raw_D ri) = true
                    /\ nonneg (raw_v ri) = true) (raw_items raw) ->
  as_params raw = Some params ->
  validate_instance params = true.
Proof.
  intros HA Hr Hne Hall. unfold as_params.
  destruct (mapM as_item (raw_items raw)) as [items|] eqn:E; [|discriminate].
  intros [= <-]. apply mapM_Some in E.
  unfold validate_instance. cbn [params_A params_r params_items].
  rewrite HA, Hr. cbn [andb].
  rewrite bool_decide_eq_false_2.
  2:{ intros ->. apply Forall2_nil_inv_r in E. contradiction. }
  cbn [negb andb]. apply forallb_forall. intros it Hin%list_elem_of_In.
  apply list_elem_of_lookup in Hin as [i Hi].
  destruct (Forall2_lookup_r _ _ _ _ _ E Hi) as (ri & Hri & Has).
  rewrite Forall_forall in Hall.
  destruct (Hall ri) as (Ha & HD & Hv); [eapply list_elem_of_lookup_2, Hri|].
  unfold as_item in Has. destruct (raw_id ri); try discriminate.
  injection Has as <-. unfold valid_item. cbn [it_a it_D it_v].
  now rewrite Ha, HD, Hv.
Qed.

Lemma to_params_struct_well_formed (data : json) :
  well_formed data ->
  Loader.to_params_struct float_of_str data = Throw (Builtin OverflowError)
  \/ exists raw,
       Loader.to_params_struct float_of_str data = Return raw
       /\ raw_items raw <> []
       /\ forall params, as_params raw = Some params ->
                         validate_instance params = true.
Proof.
  intros (d & A & r & items & -> & HlA & HnA & Hlr & Hnr & Hli & Hne & Hall).
  unfold Loader.to_params_struct.
  rewrite (py_getitem_dict _ _ _ Hli), (py_getitem_dict _ _ _ HlA),
    (py_getitem_dict _ _ _ Hlr).
  cbn [mbind outcome_bind Loader.py_iter].
  destruct (to_items_validated items Hall) as [->|(ris & -> & Hlen & Hris)];
    [now left|].
  cbn [mbind outcome_bind].
  destruct (py_float_validated A HnA) as [->|(xA & -> & HxA)]; [now left|].
  cbn [mbind outcome_bind].
  destruct (py_float_validated r Hnr) as [->|(xr & -> & Hxr)]; [now left|].
  cbn [mbind outcome_bind]. right. eexists. split; [reflexivity|].
  assert (ris <> []) as Hris_ne.
  { intros ->. destruct items; [contradiction | discriminate]. }
  split; [exact Hris_ne|].
  intros params. now apply as_params_validated.
Qed.

(** X18. On input the validator accepts, the conversion to the parameter
    structure raises nothing but the [OverflowError] of an integer beyond
    the range of the floats. When it returns, the item list is not empty
    and the parameters, read with their string ids, pass the validation
    the solver is analysed under. *)
Theorem to_params_struct_validated (data : json) :
  Validators.validate_instance data = Return [] ->
  Loader.to_params_struct float_of_str data = Throw (Builtin OverflowError)
  \/ exists raw,
       Loader.to_params_struct float_of_str data = Return raw
       /\ raw_items raw <> []
       /\ forall params, as_params raw = Some params ->
                         validate_instance params = true.
Proof.
  intros Hwf%validate_accepts_sound.
  destruct (to_params_struct_well_formed data Hwf) as [E|(raw & E & Hne & Hvalid)].
  - now left.
  - right. exists raw. auto.
Qed.

(** X19. What [load_and_validate_from_json] does with the parsed input: it
    raises when the validator does; with errors to report it returns them
    and no parameters; with none, it returns parameters that pass the
    validation, unless the conversion meets an integer beyond the range of
    the floats and raises [OverflowError]. *)
Theorem load_and_validate_from_json_cases (file_bytes : list Byte.byte) (data : json) :
  load_json_bytes file_bytes = Return data ->
  match Validators.validate_instance data with
  | Throw e =>
      Loader.load_and_validate_from_json float_of_str load_json_bytes file_bytes
      = Throw e
  | Return [] =>
      Loader.load_and_validate_from_json float_of_str load_json_bytes file_bytes
      = Throw (Builtin OverflowError)
      \/ exists raw,
           Loader.load_and_validate_from_json float_of_str load_json_bytes
                                              file_bytes
           = Return (Some raw, data, [])
           /\ forall p, as_params raw = Some p -> validate_instance p = true
  | Return errors =>
      Loader.load_and_validate_from_json float_of_str load_json_bytes file_bytes
      = Return (None, data, errors)
  end.
Proof.
  intros Hdata. unfold Loader.load_and_validate_from_json.
  rewrite Hdata. cbn [mbind outcome_bind].
  destruct (Validators.validate_instance data) as [[|e errors]|e] eqn:Hval;
    cbn [mbind outcome_bind]; try reflexivity.
  destruct (to_params_struct_well_formed data (validate_accepts_sound data Hval))
    as [->|(raw & -> & _ & Hvalid)];
    [now left|].
  right. exists raw. split; [reflexivity | exact Hvalid].
Qed.

End LoaderFacts.

(** ** The two comparison helpers *)

Section AppComparison.
Context {F : Type} `{PyFloat F}.

(** X20. The comparison helper of [app.py] raises [TypeError] exactly when
    one of the two solutions has no cycle time, as every solution of the
    independent policy; otherwise its cost difference and its label are
    those of the solver's [compare_policies], and so is its difference of
    cycle times when neither cycle time is zero. *)
Theorem app_compare_policies_agrees (sol1 sol2 : Solution F) :
  (App.compare_policies sol1 sol2 = Throw TypeError
   <-> sol_T_star sol1 = None \/ sol_T_star sol2 = None)
  /\ forall c, App.compare_policies sol1 sol2 = Return c ->
       app_cost_diff c = cmp_cost_diff (compare_policies sol1 sol2)
       /\ app_better c = cmp_better (compare_policies sol1 sol2)
       /\ forall t1 t2,
            sol_T_star sol1 = Some t1 -> sol_T_star sol2 = Some t2 ->
            feqb t1 (of_int 0) = false -> feqb t2 (of_int 0) = false ->
            app_T_star_diff c = cmp_T_star_diff (compare_policies sol1 sol2).
Proof.
  unfold App.compare_policies, compare_policies.
  destruct (sol_T_star sol1) as [t1|], (sol_T_star sol2) as [t2|]; simpl;
    (split; [split; [try discriminate; auto | intros [?|?]; try discriminate; auto]|]);
    intros c; try discriminate.
  intros [= <-]. simpl. repeat split.
  intros ? ? [= <-] [= <-] -> ->. reflexivity.
Qed.

End AppComparison.

(** ** The two number models satisfy the further laws *)

#[global] Instance binary64_of_int_laws : OfIntLaws float.
Proof. constructor. apply int_to_float_nonneg. Qed.

#[global] Instance exact_of_int_laws : OfIntLaws R.
Proof.
  constructor. intros z Hz. apply ExactFacts.nonneg_true. simpl. now apply IZR_le.
Qed.

(** ** The further theorems at concrete inputs *)

Section FurtherBinary64Witnesses.
Import Binary64 Binary64Facts.

Lemma infinite_setup_valid : validate_instance infinite_setup_example = true.
Proof. vm_compute; reflexivity. Qed.

Lemma infinite_setup_fails :
  find_formula_policy infinite_setup_example = Raise OverflowError.
Proof. vm_compute; reflexivity. Qed.

(** An infinite candidate: [round] raises [OverflowError]. *)
Lemma joint_exceptions_witness :
  find_formula_policy infinite_setup_example = Raise OverflowError
  /\ ArithmeticFailure OverflowError
  /\ OverflowError <> KeyError /\ OverflowError <> IndexError.
Proof.
  split; [exact infinite_setup_fails|].
  apply (joint_exceptions infinite_setup_example OverflowError).
  - discriminate.
  - exact infinite_setup_fails.
Defined.

Lemma empty_item_list_witness :
  find_formula_policy (mkParams 40%float 0.24%float []) = Raise IndexError
  /\ find_independent_policy (mkParams 40%float 0.24%float [])
     = Ok (mkSol None [] [] (of_int 0)
                 (mkCost None None (of_int 0) (of_int 0)) "independent_eoq").
Proof.
  apply (empty_item_list (mkParams 40%float 0.24%float [])). reflexivity.
Defined.

Lemma joint_output_follows_input_witness :
  exists (sol : Solution float) (T_star : float),
    find_formula_policy example_small = Ok sol
    /\ sol_T_star sol = Some T_star
    /\ map res_id (sol_item_results sol) = ["1L"; "5L"; "10L"]
    /\ sol_m sol = map res_m (sol_item_results sol).
Proof.
  assert (exists sol, find_formula_policy example_small = Ok sol) as [sol Hsol]
    by (eexists; vm_compute; reflexivity).
  destruct (joint_output_follows_input example_small sol Hsol)
    as (T_star & HT & _ & _ & Hm & Hall).
  exists sol, T_star. repeat split; try assumption.
  unfold example_small in Hall. cbn [params_items] in Hall.
  inversion Hall as [|? r1 ? l1 (E1 & _) Hall1]; subst.
  inversion Hall1 as [|? r2 ? l2 (E2 & _) Hall2]; subst.
  inversion Hall2 as [|? r3 ? l3 (E3 & _) Hall3]; subst.
  inversion Hall3; subst. simpl. now rewrite E1, E2, E3.
Defined.

(** The instance with an infinite setup cost passes the validation and
    fails at [round]. *)
Lemma joint_validated_failure_witness :
  find_formula_policy infinite_setup_example = Raise OverflowError
  /\ (InvalidParameters OverflowError \/ OverflowError = OverflowError
      \/ OverflowError = ValueError msg_round_nan).
Proof.
  split; [exact infinite_setup_fails|].
  exact (joint_validated_failure infinite_setup_example OverflowError
           infinite_setup_valid infinite_setup_fails).
Defined.

Lemma independent_output_follows_input_witness :
  exists sol : Solution float,
    find_independent_policy example_small = Ok sol
    /\ sol_T_star sol = None
    /\ sol_m sol = [1; 1; 1]
    /\ cb_item_setup (sol_cost_breakdown sol)
       = py_sum (map res_annual_setup_cost (sol_item_results sol)).
Proof.
  assert (exists sol, find_independent_policy example_small = Ok sol) as [sol Hsol]
    by (eexists; vm_compute; reflexivity).
  destruct (independent_output_follows_input example_small sol Hsol)
    as (HT & _ & Hm & _ & _ & _ & _ & _ & Hsetup & _).
  exists sol. repeat split; assumption.
Defined.

(** The lecture instance with the value of item 5L set to zero. *)
Lemma independent_validated_failure_witness :
  find_independent_policy
    (mkParams 40%float 0.24%float
       [ mkItem "1L" 15%float 500%float 2%float;
         mkItem "5L" 15%float 300%float 0%float ])
  = Raise ZeroDivisionError.
Proof.
  assert (exists e,
            find_independent_policy
              (mkParams 40%float 0.24%float
                 [ mkItem "1L" 15%float 500%float 2%float;
                   mkItem "5L" 15%float 300%float 0%float ]) = Raise e)
    as [e He] by (eexists; vm_compute; reflexivity).
  rewrite He. f_equal.
  apply (independent_validated_failure
           (mkParams 40%float 0.24%float
              [ mkItem "1L" 15%float 500%float 2%float;
                mkItem "5L" 15%float 300%float 0%float ]) e);
    [reflexivity | exact He].
Defined.

(** A sweep over the carrying charge whose second sample is zero. *)
Lemma sweep_stops_at_first_failure_witness :
  sweep example_small OverR [0.24%float; 0%float; 0.5%float]
  = ([example_small; mkParams 40%float 0%float (params_items example_small)],
     Raise (ValueError msg_denominator)).
Proof.
  apply (sweep_stops_at_first_failure example_small OverR
           [0.24%float] 0%float [0.5%float] (ValueError msg_denominator) I).
  - intros x. rewrite elem_of_cons, elem_of_nil.
    intros [->|[]]. eexists. vm_compute; reflexivity.
  - vm_compute; reflexivity.
Defined.

(** A sweep over the setup cost of an item "7L" the instance does not have. *)
Lemma sweep_unknown_item_is_flat_witness :
  exists sol : Solution float,
    find_formula_policy example_small = Ok sol
    /\ sensitivity_curve_over_item example_small "7L" "a" [1%float; 2%float]
       = ([example_small; example_small],
          Ok ([1%float; 2%float], [sol_total_cost sol; sol_total_cost sol])).
Proof.
  assert (exists sol, find_formula_policy example_small = Ok sol) as [sol Hsol]
    by (eexists; vm_compute; reflexivity).
  exists sol. split; [exact Hsol|].
  apply (sweep_unknown_item_is_flat example_small "7L" "a"
           [1%float; 2%float] sol).
  - left.
  - intros it. unfold example_small. cbn [params_items].
    rewrite !elem_of_cons, elem_of_nil.
    intros [->|[->|[->|[]]]]; discriminate.
  - exact Hsol.
Defined.

(** An item that is a number, not a dictionary. *)
Lemma validate_instance_raises_witness :
  Validators.validate_instance (JDict [("items", JList [JInt 1])]) = Throw TypeError
  /\ (is_dict (JDict [("items", JList [JInt 1])]) = false
      \/ exists d l it,
           JDict [("items", JList [JInt 1])] = JDict d
           /\ dict_lookup "items" d = Some (JList l)
           /\ it ∈ l /\ is_dict it = false).
Proof.
  split; [reflexivity|].
  apply (validate_instance_raises (JDict [("items", JList [JInt 1])]) TypeError).
  reflexivity.
Defined.

(** The demo instance of [app.py]. *)
Lemma to_params_struct_validated_witness :
  Loader.to_params_struct (fun _ => Raise (ValueError "")) raw_example_small
  = Throw (Builtin OverflowError)
  \/ exists raw,
       Loader.to_params_struct (fun _ => Raise (ValueError "")) raw_example_small
       = Return raw
       /\ raw_items raw <> []
       /\ forall params, as_params raw = Some params ->
                         validate_instance params = true.
Proof.
  apply (to_params_struct_validated (fun _ => Raise (ValueError ""))
           raw_example_small).
  vm_compute; reflexivity.
Defined.

Lemma load_and_validate_from_json_cases_witness :
  Loader.load_and_validate_from_json
    (fun _ => Raise (ValueError "")) (fun _ => Return raw_example_small) []
  = Throw (Builtin OverflowError)
  \/ exists raw,
       Loader.load_and_validate_from_json
         (fun _ => Raise (ValueError "")) (fun _ => Return raw_example_small) []
       = Return (Some raw, raw_example_small, [])
       /\ forall p, as_params raw = Some p -> validate_instance p = true.
Proof.
  exact (load_and_validate_from_json_cases
           (fun _ => Raise (ValueError "")) (fun _ => Return raw_example_small)
           [] raw_example_small eq_refl).
Defined.

(** The demo instance loads as the lecture instance, and an integer of
    1025 bits does not load. *)
Example raw_example_small_loads :
  (Loader.to_params_struct (fun _ => Raise (ValueError "")) raw_example_small
   ≫= fun raw => Return (as_params raw)) = Return (Some example_small)
  /\ Loader.py_float (fun _ => Raise (ValueError "")) (JInt (2 ^ 1024))
     = Throw (Builtin OverflowError)
  /\ Loader.py_float (fun _ => Raise (ValueError "")) (JInt (2 ^ 1024 - 2 ^ 970 - 1))
     = Return 0x1.fffffffffffffp+1023%float.
Proof. repeat split; vm_compute; reflexivity. Qed.




End FurtherBinary64Witnesses.
